(** * BLS OEWS wage pipeline: a shallow embedding of [pipeline/bls_pipeline.py]

    The development follows the module top to bottom: the Python string
    primitives the module relies on, the series builder, the batch fetcher,
    the response aggregator, the loader, the run logger and [main].

    Python [str] values are modelled by [string]; a character is a code point
    below 256.  Python [dict]s whose iteration order matters (the constant
    tables and the catalog) are association lists in insertion order; the
    dictionaries that are only looked up and updated are [gmap]s.  Code that
    may raise returns a [result]; what lies outside the process — the outcome
    of each POST, the failures of the database server — is an explicit
    argument.

    Left out: the log lines and the counter [series_with_data] that feeds
    them only, the pause between batches, durations and timestamps, the
    opening of the connection and the query that reads the catalog. *)

From Stdlib Require Import ZArith Lia Ascii String.
From stdpp Require Import base option list gmap strings.

Set Warnings "-register-all".

(** ** Exceptions and the result monad *)

Inductive exn : Type :=
  | ValueError
  | TypeError
  | AttributeError
  | KeyError
  | IndexError
  | OverflowError
  | JSONDecodeError
  | RuntimeError (msg : string)
  | DatabaseError (msg : string).

Inductive result (A : Type) : Type :=
  | Ok (a : A)
  | Raise (e : exn).
Arguments Ok {A} a.
Arguments Raise {A} e.

Definition rbind {A B} (m : result A) (k : A → result B) : result B :=
  match m with
  | Ok a => k a
  | Raise e => Raise e
  end.

Notation "'let!' x ':=' m 'in' k" := (rbind m (λ x, k))
  (at level 10, x pattern, m at level 100, k at level 200,
   format "'[' 'let!'  x  ':='  m  'in'  '/' k ']'").

Definition raises {A} (m : result A) : Prop := ∃ e, m = Raise e.
Definition returns {A} (m : result A) : Prop := ∃ a, m = Ok a.

(** ** Python string primitives *)

Module Py.

Definition code (c : ascii) : nat := nat_of_ascii c.

Definition is_digit (c : ascii) : bool :=
  (48 <=? code c)%nat && (code c <=? 57)%nat.

(** [str.isspace] on one code point below 256: TAB..CR, FS..US, SPACE,
    NEL and NBSP. *)
Definition is_space (c : ascii) : bool :=
  let n := code c in
  ((9 <=? n)%nat && (n <=? 13)%nat)
  || ((28 <=? n)%nat && (n <=? 32)%nat)
  || (n =? 133)%nat || (n =? 160)%nat.

Fixpoint lstrip (s : string) : string :=
  match s with
  | String c s' => if is_space c then lstrip s' else s
  | EmptyString => EmptyString
  end.

(** Drops the trailing whitespace: a character is kept when anything kept
    follows it or when it is not whitespace itself. *)
Fixpoint rstrip (s : string) : string :=
  match s with
  | String c s' =>
      match rstrip s' with
      | EmptyString => if is_space c then EmptyString else String c EmptyString
      | r => String c r
      end
  | EmptyString => EmptyString
  end.

(** [s.strip()] *)
Definition strip (s : string) : string := rstrip (lstrip s).

(** The whitespace [int] and [float] skip around a number: TAB..CR and
    SPACE, and NEL and NBSP, which they read as spaces.  Unlike [str.strip]
    they do not skip FS..US. *)
Definition is_number_space (c : ascii) : bool :=
  let n := code c in
  ((9 <=? n)%nat && (n <=? 13)%nat)
  || (n =? 32)%nat || (n =? 133)%nat || (n =? 160)%nat.

Fixpoint skip_left (s : string) : string :=
  match s with
  | String c s' => if is_number_space c then skip_left s' else s
  | EmptyString => EmptyString
  end.

Fixpoint skip_right (s : string) : string :=
  match s with
  | String c s' =>
      match skip_right s' with
      | EmptyString => if is_number_space c then EmptyString else String c EmptyString
      | r => String c r
      end
  | EmptyString => EmptyString
  end.

(** The text of a number without the whitespace around it. *)
Definition number_text (s : string) : string := skip_right (skip_left s).

(** [s.replace(c, "")] for a one-character pattern [c]. *)
Fixpoint remove_char (c : ascii) (s : string) : string :=
  match s with
  | String x s' =>
      if Ascii.eqb x c then remove_char c s' else String x (remove_char c s')
  | EmptyString => EmptyString
  end.

Fixpoint zeros (n : nat) : string :=
  match n with
  | O => EmptyString
  | S n' => String "0" (zeros n')
  end.

Definition is_sign (c : ascii) : bool := Ascii.eqb c "+" || Ascii.eqb c "-".

(** [s.zfill(width)]: the string itself when it is long enough, otherwise
    zeros on the left, placed after a leading sign when there is one. *)
Definition zfill (width : nat) (s : string) : string :=
  let n := String.length s in
  if (width <=? n)%nat then s
  else match s with
       | String c s' =>
           if is_sign c then String c (zeros (width - n) +:+ s')
           else zeros (width - n) +:+ s
       | EmptyString => zeros (width - n)
       end.

Fixpoint all_chars (p : ascii → bool) (s : string) : bool :=
  match s with
  | String c s' => p c && all_chars p s'
  | EmptyString => true
  end.

(** *** Numbers read from text

    A float is written as the decimal it is equal to, [mant * 10 ^ exp]
    with a sign: every finite binary64 number is such a decimal.  [float]
    rounds what it reads to the nearest binary64 number, ties to even, and
    gives the result in lowest terms: [exp <= 0], and the mantissa ends in a
    zero only when [exp = 0]. *)
Inductive float : Type :=
  | FDec (neg : bool) (mant : N) (exp : Z)
  | FInf (neg : bool)
  | FNan.

(** [2 ^ k <= num / den], for positive [den]. *)
Definition pow2_le (k num den : Z) : bool :=
  if (0 <=? k)%Z then (den * 2 ^ k <=? num)%Z else (den <=? num * 2 ^ (- k))%Z.

(** Drops the zeros that end the mantissa while the exponent is negative. *)
Fixpoint lowest_terms (fuel : nat) (mant exp : Z) : Z * Z :=
  match fuel with
  | O => (mant, exp)
  | S fuel' =>
      if (exp <? 0)%Z && (mant mod 10 =? 0)%Z
      then lowest_terms fuel' (mant / 10) (exp + 1)
      else (mant, exp)
  end.

(** The binary64 number nearest to [num / den], for [num >= 0] and
    [den > 0].  With [2 ^ k <= num / den < 2 ^ (k + 1)], the last of the 53
    bits weighs [2 ^ e], [e = k - 52], and never less than [2 ^ -1074]; the
    quotient by [2 ^ e] is rounded to the nearest integer [m], to the even
    one at a tie; from [2 ^ 1024] on the result is infinite. *)
Definition round_binary64 (neg : bool) (num den : Z) : float :=
  if (num =? 0)%Z then FDec neg 0 0 else
  let l := (Z.log2 num - Z.log2 den)%Z in
  let k := if pow2_le l num den then l else (l - 1)%Z in
  let e := Z.max (k - 52) (-1074) in
  let '(n, d) :=
    if (0 <=? e)%Z then (num, den * 2 ^ e)%Z else (num * 2 ^ (- e), den)%Z in
  let q := (n / d)%Z in
  let r := (n mod d)%Z in
  let m := if (d <? 2 * r)%Z || ((d =? 2 * r)%Z && Z.odd q)
           then (q + 1)%Z else q in
  if (971 <? e)%Z || ((e =? 971)%Z && (2 ^ 53 <=? m)%Z) then FInf neg
  else if (0 <=? e)%Z then FDec neg (Z.to_N (m * 2 ^ e)) 0
  else
    let '(mant, exp) := lowest_terms (Z.to_nat (- e)) (m * 5 ^ (- e)) e in
    FDec neg (Z.to_N mant) exp.

(** The float read from the decimal [mant * 10 ^ exp]. *)
Definition float_of_decimal (neg : bool) (mant : N) (exp : Z) : float :=
  if (0 <=? exp)%Z then round_binary64 neg (Z.of_N mant * 10 ^ exp) 1
  else round_binary64 neg (Z.of_N mant) (10 ^ (- exp)).

(** The longest prefix of decimal digits, and what follows it. *)
Fixpoint span_digits (s : string) : string * string :=
  match s with
  | String c s' =>
      if is_digit c
      then let '(ds, rest) := span_digits s' in (String c ds, rest)
      else (EmptyString, s)
  | EmptyString => (EmptyString, EmptyString)
  end.

(** The number written by a string of digits, most significant first. *)
Fixpoint digits_value (acc : N) (s : string) : N :=
  match s with
  | String c s' => digits_value (10 * acc + N.of_nat (code c - 48)) s'
  | EmptyString => acc
  end.

(** Underscores may only stand between two digits.  [prev] is the
    character before [s]. *)
Fixpoint underscores_ok (prev : option ascii) (s : string) : bool :=
  match s with
  | String c s' =>
      (if Ascii.eqb c "_"
       then match prev with Some p => is_digit p | None => false end
            && match s' with String n _ => is_digit n | EmptyString => false end
       else true)
      && underscores_ok (Some c) s'
  | EmptyString => true
  end.

Definition take_sign (s : string) : bool * string :=
  match s with
  | String c s' =>
      if Ascii.eqb c "-" then (true, s')
      else if Ascii.eqb c "+" then (false, s')
      else (false, s)
  | EmptyString => (false, s)
  end.

Definition lower (c : ascii) : ascii :=
  if (65 <=? code c)%nat && (code c <=? 90)%nat
  then ascii_of_nat (code c + 32) else c.

Fixpoint lowercase (s : string) : string :=
  match s with
  | String c s' => String (lower c) (lowercase s')
  | EmptyString => EmptyString
  end.

(** The exponent part of a float literal: nothing, or [e]/[E], an optional
    sign and at least one digit, up to the end of the text. *)
Definition parse_exponent (s : string) : option Z :=
  match s with
  | EmptyString => Some 0%Z
  | String c s' =>
      if Ascii.eqb (lower c) "e" then
        let '(neg, s1) := take_sign s' in
        let '(ds, rest) := span_digits s1 in
        match ds, rest with
        | String _ _, EmptyString =>
            let v := Z.of_N (digits_value 0 ds) in
            Some (if neg then (- v)%Z else v)
        | _, _ => None
        end
      else None
  end.

(** [float(s)] on a [str]: [None] stands for [ValueError], the only
    exception [float] raises on a string. *)
Definition float_of_string (s : string) : option float :=
  let t := number_text s in
  if negb (underscores_ok None t) then None else
  let '(neg, body) := take_sign (remove_char "_" t) in
  let low := lowercase body in
  if String.eqb low "inf" || String.eqb low "infinity" then Some (FInf neg)
  else if String.eqb low "nan" then Some FNan
  else
    let '(ip, r1) := span_digits body in
    let '(fp, r2) :=
      match r1 with
      | String c r => if Ascii.eqb c "." then span_digits r else (EmptyString, r1)
      | EmptyString => (EmptyString, r1)
      end in
    match ip +:+ fp with
    | EmptyString => None
    | ds =>
        match parse_exponent r2 with
        | Some e =>
            Some (float_of_decimal neg (digits_value 0 ds)
                    (e - Z.of_nat (String.length fp)))
        | None => None
        end
    end.

(** The most digits [int] reads from a string, as the interpreter sets it
    by default ([sys.get_int_max_str_digits()]). *)
Definition INT_MAX_STR_DIGITS : nat := 4300.

(** [int(s)] on a [str], base ten: [None] stands for [ValueError]. *)
Definition int_of_string (s : string) : option Z :=
  let t := number_text s in
  let '(neg, body) := take_sign t in
  if negb (underscores_ok None body) then None else
  let ds := remove_char "_" body in
  match ds with
  | EmptyString => None
  | _ =>
      if all_chars is_digit ds && (String.length ds <=? INT_MAX_STR_DIGITS)%nat
      then let v := Z.of_N (digits_value 0 ds) in Some (if neg then (- v)%Z else v)
      else None
  end.

(** [int(f)] on a float: truncation towards zero. *)
Definition int_of_float (f : float) : result Z :=
  match f with
  | FDec neg mant exp =>
      let v := if (0 <=? exp)%Z
               then (Z.of_N mant * 10 ^ exp)%Z
               else (Z.of_N mant / 10 ^ (- exp))%Z in
      Ok (if neg then (- v)%Z else v)
  | FInf _ => Raise OverflowError
  | FNan => Raise ValueError
  end.

Definition float_is_zero (f : float) : bool :=
  match f with
  | FDec _ mant _ => (mant =? 0)%N
  | _ => false
  end.

End Py.

(** ** Constants *)

(** [MSA_CODES], in insertion order: name, 5-digit code. *)
Definition MSA_CODES : list (string * string) :=
  [ ("Austin TX",        "12420");
    ("New York NY",      "35620");
    ("San Francisco CA", "41860");
    ("Washington DC",    "47900");
    ("Denver CO",        "19740") ].

(** [DATA_TYPES], in insertion order: data-type code, column name. *)
Definition DATA_TYPES : list (string * string) :=
  [ ("03", "annual_mean");
    ("11", "pct_10");
    ("12", "pct_25");
    ("13", "pct_50");
    ("14", "pct_75");
    ("15", "pct_90") ].

Definition INDUSTRY_CODE : string := "000000".

(** ** Step 2: series identifiers *)

Definition soc_to_digits (soc_code : string) : string :=
  Py.zfill 6 (Py.remove_char "-" soc_code).

Definition msa_to_area_code (msa_code : string) : string :=
  Py.zfill 7 msa_code.

Definition build_series_id (msa_code soc_code data_type : string) : string :=
  "OEUM"
  +:+ msa_to_area_code msa_code
  +:+ INDUSTRY_CODE
  +:+ soc_to_digits soc_code
  +:+ data_type.

(** A series descriptor, the dict appended by [build_all_series]. *)
Record descriptor : Type := Descriptor {
  series_id : string;
  msa_name  : string;
  msa_code  : string;
  soc_code  : string;
  soc_title : string;
  data_type : string;
  col_name  : string;
}.

(** [soc_map] is the catalog dict as its [items()], in insertion order. *)
Definition build_all_series (soc_map : list (string * string)) : list descriptor :=
  '(msa_name, msa_code) ← MSA_CODES;
  '(soc_code, soc_title) ← soc_map;
  '(dt_code, col_name) ← DATA_TYPES;
  [ {| series_id := build_series_id msa_code soc_code dt_code;
       msa_name  := msa_name;
       msa_code  := msa_code;
       soc_code  := soc_code;
       soc_title := soc_title;
       data_type := dt_code;
       col_name  := col_name |} ].

(** The standard occupation code format XX-XXXX: two digits, a dash, four
    digits. *)
Definition is_soc_code (s : string) : bool :=
  match s with
  | String a (String b (String m (String c (String d (String e (String f EmptyString)))))) =>
      Ascii.eqb m "-"
      && Py.is_digit a && Py.is_digit b
      && Py.is_digit c && Py.is_digit d && Py.is_digit e && Py.is_digit f
  | _ => false
  end.

(** An area code as the identifier embeds it: at most seven decimal digits. *)
Definition is_area_code (s : string) : bool :=
  Py.all_chars Py.is_digit s && (String.length s <=? 7)%nat.

(** A statistic type code: exactly two decimal digits. *)
Definition is_type_code (s : string) : bool :=
  Py.all_chars Py.is_digit s && (String.length s =? 2)%nat.


(** ** Parsed JSON

    The Python values [resp.json()] can produce.  An object carries its items;
    its keys are pairwise distinct, as in the dict. *)

Inductive json : Type :=
  | JNull
  | JBool (b : bool)
  | JInt (z : Z)
  | JFloat (f : Py.float)
  | JStr (s : string)
  | JArr (items : list json)
  | JObj (fields : list (string * json)).

Fixpoint assoc {A} (k : string) (l : list (string * A)) : option A :=
  match l with
  | (k', v) :: l' => if String.eqb k' k then Some v else assoc k l'
  | [] => None
  end.

(** [d.get(k, default)]: only a dict has [get]. *)
Definition dict_get (d : json) (k : string) (dflt : json) : result json :=
  match d with
  | JObj fields => Ok (default dflt (assoc k fields))
  | _ => Raise AttributeError
  end.

(** Truth value of an object, as [if not x] tests it. *)
Definition truthy (v : json) : bool :=
  match v with
  | JNull => false
  | JBool b => b
  | JInt z => negb (z =? 0)%Z
  | JFloat f => negb (Py.float_is_zero f)
  | JStr s => negb (String.eqb s "")
  | JArr items => match items with [] => false | _ => true end
  | JObj fields => match fields with [] => false | _ => true end
  end.

(** [x[0]]: the first item of a list, the first character of a string; a
    dict parsed from JSON has no key [0]; the rest cannot be subscripted. *)
Definition first_item (v : json) : result json :=
  match v with
  | JArr (x :: _) => Ok x
  | JArr [] => Raise IndexError
  | JStr (String c _) => Ok (JStr (String c EmptyString))
  | JStr EmptyString => Raise IndexError
  | JObj _ => Raise KeyError
  | JNull | JBool _ | JInt _ | JFloat _ => Raise TypeError
  end.

(** [int(x)] *)
Definition py_int (v : json) : result Z :=
  match v with
  | JStr s =>
      match Py.int_of_string s with
      | Some z => Ok z
      | None => Raise ValueError
      end
  | JInt z => Ok z
  | JBool b => Ok (if b then 1 else 0)%Z
  | JFloat f => Py.int_of_float f
  | JNull | JArr _ | JObj _ => Raise TypeError
  end.

(** [float(s)] on a string. *)
Definition py_float (s : string) : result Py.float :=
  match Py.float_of_string s with
  | Some f => Ok f
  | None => Raise ValueError
  end.

(** ** Step 3: fetch one batch *)

(** What the POST of one batch comes to: [raise_for_status] raises, the
    transport raises, or a body arrives that [resp.json()] decodes or not. *)
Inductive post_outcome : Type :=
  | PostHTTPError
  | PostNetworkError
  | PostBody (data : json)
  | PostBodyNotJSON.

Fixpoint is_infix (k s : string) : bool :=
  String.prefix k s
  || match s with
     | String _ s' => is_infix k s'
     | EmptyString => false
     end.

(** [k in data] for a string [k]. *)
Definition py_in (k : string) (data : json) : result bool :=
  match data with
  | JObj fields => Ok (bool_decide (is_Some (assoc k fields)))
  | JArr items =>
      Ok (existsb (λ x, match x with JStr s => String.eqb s k | _ => false end) items)
  | JStr s => Ok (is_infix k s)
  | JNull | JBool _ | JInt _ | JFloat _ => Raise TypeError
  end.

(** [data[k]] for a string [k]. *)
Definition py_item (data : json) (k : string) : result json :=
  match data with
  | JObj fields =>
      match assoc k fields with
      | Some v => Ok v
      | None => Raise KeyError
      end
  | _ => Raise TypeError
  end.

(** [v != s] for a string [s]. *)
Definition differs_from (v : json) (s : string) : bool :=
  match v with
  | JStr t => negb (String.eqb t s)
  | _ => true
  end.

(** [data.keys()]: only a dict has [keys]. *)
Definition py_keys (data : json) : result (list string) :=
  match data with
  | JObj fields => Ok fields.*1
  | _ => Raise AttributeError
  end.

(** [fetch_bls_batch]: [None] on an HTTP or network error and on a body
    without the two top-level keys; the body otherwise, whatever its status.
    The decoding of the body stands outside the [try].  The warning about a
    missing key is formatted from [data.keys()], and the one about the status
    from [data.get("message", [])], before the function returns. *)
Definition fetch_bls_batch (outcome : post_outcome) : result (option json) :=
  match outcome with
  | PostHTTPError => Ok None
  | PostNetworkError => Ok None
  | PostBodyNotJSON => Raise JSONDecodeError
  | PostBody data =>
      let! has_status := py_in "status" data in
      let! missing :=
        (if negb has_status then Ok true
         else let! has_results := py_in "Results" data in Ok (negb has_results)) in
      if (missing : bool) then
        let! _ := py_keys data in
        Ok None
      else
        let! status := py_item data "status" in
        let! _ :=
          (if differs_from status "REQUEST_SUCCEEDED"
           then dict_get data "message" (JArr [])
           else Ok JNull) in
        Ok (Some data)
  end.

(** ** Step 4: parse a response *)

Definition SUPPRESSED : list string := ["-"; "**"; "N/A"; "NA"; ""].

(** [safe_wage]: [strip] exists on strings only; the [ValueError] of [float]
    is caught. *)
Definition safe_wage (value_str : json) : result (option Py.float) :=
  match value_str with
  | JStr s =>
      let v := Py.strip s in
      if bool_decide (v ∈ SUPPRESSED) then Ok None
      else match py_float v with
           | Ok f => Ok (Some f)
           | Raise ValueError => Ok None
           | Raise e => Raise e
           end
  | _ => Raise AttributeError
  end.

(** A value held by an aggregated row or bound to a statement parameter. *)
Inductive cell : Type :=
  | CStr (s : string)
  | CInt (z : Z)
  | CFloat (f : Py.float)
  | CNone.

(** The aggregation key [(soc_code, msa_code, year)]. *)
Definition key : Type := string * string * Z.

(** [series_meta.get(sid)]: a list or dict is unhashable; a hashable object
    that is no string equals no identifier. *)
Definition meta_get (series_meta : gmap string descriptor) (sid : json)
    : result (option descriptor) :=
  match sid with
  | JStr s => Ok (series_meta !! s)
  | JArr _ | JObj _ => Raise TypeError
  | JNull | JBool _ | JInt _ | JFloat _ => Ok None
  end.

Definition new_row (meta : descriptor) (year : Z) : gmap string cell :=
  <["survey_year" := CInt year]>
  (<["msa_name" := CStr (msa_name meta)]>
  (<["msa_code" := CStr (msa_code meta)]>
  (<["soc_title" := CStr (soc_title meta)]>
  (<["soc_code" := CStr (soc_code meta)]> ∅)))).

(** The body of the loop of [parse_response], on one series. *)
Definition parse_series (SURVEY_YEAR : Z) (series_meta : gmap string descriptor)
    (partial : gmap key (gmap string cell)) (series : json)
    : result (gmap key (gmap string cell)) :=
  let! sid := dict_get series "seriesID" (JStr "") in
  let! meta := meta_get series_meta sid in
  match meta with
  | None => Ok partial
  | Some meta =>
      let! data_points := dict_get series "data" (JArr []) in
      if negb (truthy data_points) then Ok partial
      else
        let! point := first_item data_points in
        let! y := dict_get point "year" (JInt SURVEY_YEAR) in
        let! year := py_int y in
        let! v := dict_get point "value" (JStr "") in
        let! wage := safe_wage v in
        match wage with
        | None => Ok partial
        | Some w =>
            let k : key := (soc_code meta, msa_code meta, year) in
            let row := default (new_row meta year) (partial !! k) in
            Ok (<[k := <[col_name meta := CFloat w]> row]> partial)
        end
  end.

(** A loop whose body may raise. *)
Fixpoint for_each {S A} (body : S → A → result S) (l : list A) (st : S) : result S :=
  match l with
  | [] => Ok st
  | x :: l' => let! st' := body st x in for_each body l' st'
  end.

Definition parse_response (SURVEY_YEAR : Z) (response_data : json)
    (series_meta : gmap string descriptor) : result (gmap key (gmap string cell)) :=
  let! results := dict_get response_data "Results" (JObj []) in
  let! series_list := dict_get results "series" (JArr []) in
  match series_list with
  | JArr items => for_each (parse_series SURVEY_YEAR series_meta) items ∅
  | _ => Ok ∅
  end.

(** ** Step 5: the database and the loader *)

Global Instance float_eq_dec : EqDecision Py.float.
Proof. solve_decision. Defined.
Global Instance cell_eq_dec : EqDecision cell.
Proof. solve_decision. Defined.

(** One row of [pipeline_run_log]; the duration and the timestamp are left
    out. *)
Record audit_row : Type := AuditRow {
  pipeline_type     : string;
  status            : string;
  records_requested : nat;
  records_received  : nat;
  records_written   : nat;
  discrepancy_flag  : bool;
  error_message     : option string;
}.

(** The two tables the pipeline writes; a row of [bls_wage_data] maps column
    names to values. *)
Record database : Type := Database {
  bls_wage_data    : list (gmap string cell);
  pipeline_run_log : list audit_row;
}.

(** A connection: what is committed, and what the open transaction sees. *)
Record connection : Type := Connection {
  committed : database;
  pending   : database;
}.

Definition commit (conn : connection) : connection :=
  {| committed := pending conn; pending := pending conn |}.

Definition rollback (conn : connection) : connection :=
  {| committed := committed conn; pending := committed conn |}.

(** What the database server does beyond the statements themselves: the
    [i]-th insert of a load, the commit of a load or the audit insert may
    fail with a message, for whatever reason the server has: a lost
    connection, a value out of the range of its column (a year beyond
    INTEGER), a lock. *)
Record db_faults : Type := DbFaults {
  upsert_fault : nat → option string;
  commit_fault : option string;
  audit_fault  : option string;
}.

Definition no_faults : db_faults :=
  {| upsert_fault := λ _, None; commit_fault := None; audit_fault := None |}.

(** [BLS_UPSERT_SQL]: the columns with the parameter bound to each. *)
Definition BLS_UPSERT_COLUMNS : list (string * string) :=
  [ ("soc_code", "soc_code"); ("soc_title", "soc_title");
    ("msa_code", "msa_code"); ("msa_name", "msa_name");
    ("reference_year", "survey_year");
    ("annual_mean", "annual_mean"); ("pct_10", "pct_10"); ("pct_25", "pct_25");
    ("pct_50", "pct_50"); ("pct_75", "pct_75"); ("pct_90", "pct_90");
    ("data_source", "data_source"); ("pipeline_run_id", "pipeline_run_id") ].

(** The columns of [UNIQUE (soc_code, msa_code, reference_year)], which are
    also the three [NOT NULL] columns of the schema. *)
Definition UNIQUE_COLUMNS : list string := ["soc_code"; "msa_code"; "reference_year"].

Definition column (row : gmap string cell) (col : string) : cell :=
  default CNone (row !! col).

Definition unique_key (row : gmap string cell) : list cell :=
  column row <$> UNIQUE_COLUMNS.

Definition conflicts (row existing : gmap string cell) : bool :=
  bool_decide (unique_key row = unique_key existing).

(** The row [BLS_UPSERT_SQL] proposes: each column with the value of its
    parameter. *)
Definition upsert_row (record : gmap string cell) : gmap string cell :=
  foldl (λ r cp, <[cp.1 := column record cp.2]> r) ∅ BLS_UPSERT_COLUMNS.

(** One execution of [BLS_UPSERT_SQL] that the server does not refuse for a
    reason of its own (those are the faults of [db_faults]): the NOT NULL
    columns are checked, a row in conflict is skipped, another one is added.
    The table afterwards and the statement's [rowcount]. *)
Definition bls_upsert (table : list (gmap string cell)) (record : gmap string cell)
    : result (list (gmap string cell) * nat) :=
  let row := upsert_row record in
  if bool_decide (CNone ∈ unique_key row)
  then Raise (DatabaseError "null value violates not-null constraint")
  else if existsb (conflicts row) table then Ok (table, 0)
  else Ok (table ++ [row], 1).

(** [row_data[k]] *)
Definition row_item (row_data : gmap string cell) (k : string) : result cell :=
  match row_data !! k with
  | Some v => Ok v
  | None => Raise KeyError
  end.

(** The parameter dict [record] built from one aggregated row. *)
Definition build_record (row_data : gmap string cell) : result (gmap string cell) :=
  let! soc_code := row_item row_data "soc_code" in
  let! soc_title := row_item row_data "soc_title" in
  let! msa_code := row_item row_data "msa_code" in
  let! msa_name := row_item row_data "msa_name" in
  let! survey_year := row_item row_data "survey_year" in
  let record : gmap string cell :=
    <["pipeline_run_id" := CNone]>
    (<["data_source" := CStr "BLS_OEWS"]>
    (<["survey_year" := survey_year]>
    (<["msa_name" := msa_name]>
    (<["msa_code" := msa_code]>
    (<["soc_title" := soc_title]>
    (<["soc_code" := soc_code]> ∅)))))) in
  Ok (foldl (λ r col, <[col := column row_data col]> r) record DATA_TYPES.*2).

(** The [for] loop of [load_wage_rows] from its [i]-th iteration on: the
    connection and the count as the loop leaves them, and the exception that
    stopped it, if any. *)
Fixpoint upsert_rows (faults : db_faults) (i : nat) (rows : list (gmap string cell))
    (conn : connection) (written : nat) : connection * nat * option exn :=
  match rows with
  | [] => (conn, written, None)
  | row_data :: rows' =>
      match build_record row_data with
      | Raise e => (conn, written, Some e)
      | Ok record =>
          match upsert_fault faults i with
          | Some msg => (conn, written, Some (DatabaseError msg))
          | None =>
              match bls_upsert (bls_wage_data (pending conn)) record with
              | Raise e => (conn, written, Some e)
              | Ok (table, rowcount) =>
                  let conn' :=
                    {| committed := committed conn;
                       pending := {| bls_wage_data := table;
                                     pipeline_run_log := pipeline_run_log (pending conn) |} |} in
                  upsert_rows faults (S i) rows' conn'
                    (if (rowcount =? 1)%nat then S written else written)
              end
          end
      end
  end.

(** [load_wage_rows]: the connection afterwards, and the count returned or
    the exception raised again after the rollback.  The rows are visited in
    the order of [map_to_list]. *)
Definition load_wage_rows (faults : db_faults) (conn : connection)
    (aggregated : gmap key (gmap string cell)) : connection * result nat :=
  match upsert_rows faults 0 (map_to_list aggregated).*2 conn 0 with
  | (conn', written, None) =>
      match commit_fault faults with
      | None => (commit conn', Ok written)
      | Some msg => (rollback conn', Raise (DatabaseError msg))
      end
  | (conn', _, Some e) => (rollback conn', Raise e)
  end.

(** ** The run logger

    [log_pipeline_run] on a connection that is still open: when the insert
    fails the handler rolls back.  (On a closed or broken connection the
    [rollback] of the handler raises in turn; that is not modelled.) *)

Definition log_pipeline_run (faults : db_faults) (conn : connection)
    (pipeline_type status : string)
    (records_requested records_received records_written : nat)
    (error_message : option string) : connection :=
  let discrepancy_flag := negb (records_received =? records_written)%nat in
  let row :=
    {| pipeline_type := pipeline_type; status := status;
       records_requested := records_requested;
       records_received := records_received;
       records_written := records_written;
       discrepancy_flag := discrepancy_flag;
       error_message := error_message |} in
  match audit_fault faults with
  | None =>
      commit {| committed := committed conn;
                pending := {| bls_wage_data := bls_wage_data (pending conn);
                              pipeline_run_log := pipeline_run_log (pending conn) ++ [row] |} |}
  | Some _ => rollback conn
  end.

(** ** Main *)

(** The two settings read from the environment when the module is loaded;
    [BLS_REGKEY] is the stripped registration key. *)
Record config : Type := Config {
  BLS_REGKEY  : string;
  SURVEY_YEAR : Z;
}.

Definition BATCH_SIZE (cfg : config) : nat :=
  if String.eqb (BLS_REGKEY cfg) "" then 25 else 50.

(** [[l[i : i + size] for i in range(0, len(l), size)]] *)
Definition batches_of {A} (size : nat) (l : list A) : list (list A) :=
  (λ n, take size (drop (n * size) l)) <$> seq 0 ((length l + size - 1) / size).

(** [{s["series_id"]: s for s in all_series}]: a later descriptor replaces an
    earlier one with the same identifier. *)
Definition series_meta_of (all_series : list descriptor) : gmap string descriptor :=
  foldl (λ m s, <[series_id s := s]> m) ∅ all_series.

(** What iterating over an object yields. *)
Definition py_iter (v : json) : result (list json) :=
  match v with
  | JArr items => Ok items
  | JObj fields => Ok (JStr <$> fields.*1)
  | JStr s => Ok ((λ c, JStr (String c EmptyString)) <$> list_ascii_of_string s)
  | JNull | JBool _ | JInt _ | JFloat _ => Raise TypeError
  end.

(** The set comprehension [returned_ids] of [main].  Only the strings in it
    are kept: the set is tested against identifiers alone, and its size feeds
    log lines only. *)
Definition returned_ids (response : json) : result (gset string) :=
  let! results := dict_get response "Results" (JObj []) in
  let! series_list := dict_get results "series" (JArr []) in
  let! items := py_iter series_list in
  for_each (λ (acc : gset string) series,
      let! sid := dict_get series "seriesID" (JStr "") in
      let! data := dict_get series "data" JNull in
      if truthy data then
        match sid with
        | JStr s => Ok ({[ s ]} ∪ acc)
        | JArr _ | JObj _ => Raise TypeError
        | JNull | JBool _ | JInt _ | JFloat _ => Ok acc
        end
      else Ok acc)
    items ∅.

(** The state the batch loop of [main] carries. *)
Record loop_state : Type := LoopState {
  master      : gmap key (gmap string cell);
  series_gaps : list string;
}.

(** The network as the run meets it: the outcome of the POST of each batch,
    by batch number and identifiers. *)
Definition network : Type := nat → list string → post_outcome.

(** One iteration of the batch loop.  [master.update(partial)] is the union
    in which [partial] wins. *)
Definition process_batch (cfg : config) (net : network)
    (series_meta : gmap string descriptor)
    (st : loop_state) (numbered : nat * list descriptor) : result loop_state :=
  let '(batch_num, batch) := numbered in
  let batch_ids := series_id <$> batch in
  let! response := fetch_bls_batch (net batch_num batch_ids) in
  match response with
  | None =>
      Ok {| master := master st; series_gaps := series_gaps st ++ batch_ids |}
  | Some response =>
      let! partial := parse_response (SURVEY_YEAR cfg) response series_meta in
      let! returned := returned_ids response in
      Ok {| master := partial ∪ master st;
            series_gaps :=
              series_gaps st ++ filter (λ sid, sid ∉ returned) batch_ids |}
  end.

(** The batch loop: the state when it ends, and the exception that ended it
    early, if any. *)
Fixpoint run_batches (cfg : config) (net : network)
    (series_meta : gmap string descriptor)
    (numbered : list (nat * list descriptor)) (st : loop_state)
    : loop_state * option exn :=
  match numbered with
  | [] => (st, None)
  | b :: rest =>
      match process_batch cfg net series_meta st b with
      | Ok st' => run_batches cfg net series_meta rest st'
      | Raise e => (st, Some e)
      end
  end.

(** [enumerate(batches, start=1)] *)
Definition enumerate1 {A} (l : list A) : list (nat * A) :=
  zip (seq 1 (length l)) l.

(** [str(exc)]: the message the exception was built with; the interpreter's
    wording for its own errors is stood for by the name of the class. *)
Definition exn_message (e : exn) : string :=
  match e with
  | RuntimeError msg | DatabaseError msg => msg
  | ValueError => "ValueError"
  | TypeError => "TypeError"
  | AttributeError => "AttributeError"
  | KeyError => "KeyError"
  | IndexError => "IndexError"
  | OverflowError => "OverflowError"
  | JSONDecodeError => "JSONDecodeError"
  end.

(** The loop starts from [master = {}] and [series_gaps = []]. *)
Definition initial_state : loop_state := {| master := ∅; series_gaps := [] |}.

(** The local variables of [main] that outlive the [try] block. *)
Record run_vars : Type := RunVars {
  total_series     : option nat;
  v_received       : nat;
  v_written        : nat;
  v_state          : loop_state;
  v_conn           : connection;
}.

(** The [try] block of [main] on an open connection, with the catalog
    [fetch_soc_codes] has read: the variables as the block leaves them and the
    exception it ended with, if any. *)
Definition main_try (cfg : config) (net : network) (faults : db_faults)
    (conn : connection) (soc_map : list (string * string))
    : run_vars * option exn :=
  let st0 := initial_state in
  match soc_map with
  | [] =>
      ({| total_series := None; v_received := 0; v_written := 0;
          v_state := st0; v_conn := conn |},
       Some (RuntimeError "soc_code_reference is empty — run seed_reference_data first."))
  | _ :: _ =>
      let all_series := build_all_series soc_map in
      let total := length all_series in
      let series_meta := series_meta_of all_series in
      let batches := batches_of (BATCH_SIZE cfg) all_series in
      match run_batches cfg net series_meta (enumerate1 batches) st0 with
      | (st, Some e) =>
          ({| total_series := Some total; v_received := 0; v_written := 0;
              v_state := st; v_conn := conn |}, Some e)
      | (st, None) =>
          let received := size (master st) in
          if (0 <? received)%nat then
            match load_wage_rows faults conn (master st) with
            | (conn', Ok written) =>
                ({| total_series := Some total; v_received := received;
                    v_written := written; v_state := st; v_conn := conn' |}, None)
            | (conn', Raise e) =>
                ({| total_series := Some total; v_received := received;
                    v_written := 0; v_state := st; v_conn := conn' |}, Some e)
            end
          else
            ({| total_series := Some total; v_received := received;
                v_written := 0; v_state := st; v_conn := conn |}, None)
      end
  end.

(** What a run leaves behind. *)
Record run_report : Type := RunReport {
  final_status  : string;
  final_error   : option string;
  final_vars    : run_vars;
  final_conn    : connection;
  exit_code     : nat;
}.

(** [main] after the connection is open: the [try] block, the [except]
    clause that turns an exception into the status FAILED, the [finally]
    clause that logs the run, and the exit code. *)
Definition main (cfg : config) (net : network) (faults : db_faults)
    (conn : connection) (soc_map : list (string * string)) : run_report :=
  let '(vars, exc) := main_try cfg net faults conn soc_map in
  let status := match exc with None => "SUCCESS" | Some _ => "FAILED" end in
  let error_msg := exn_message <$> exc in
  let conn' :=
    log_pipeline_run faults (v_conn vars) "BLS_OEWS" status
      (default 0 (total_series vars)) (v_received vars) (v_written vars)
      error_msg in
  {| final_status := status;
     final_error := error_msg;
     final_vars := vars;
     final_conn := conn';
     exit_code := if String.eqb status "SUCCESS" then 0 else 1 |}.

(** ** Step 1: the catalog

    [fetch_soc_codes] on the rows its query returns, each a code and a
    title: the dict comprehension binds the codes in the order of their first
    row, each to the title of its last row. *)

Fixpoint dict_set {A} (k : string) (v : A) (d : list (string * A)) : list (string * A) :=
  match d with
  | [] => [(k, v)]
  | (k', v') :: d' =>
      if String.eqb k' k then (k', v) :: d' else (k', v') :: dict_set k v d'
  end.

Definition fetch_soc_codes (rows : list (string * string)) : list (string * string) :=
  foldl (λ soc_map row, dict_set row.1 row.2 soc_map) [] rows.

(** ** Vocabulary of the properties *)

(** An occupation code XX-XXXX and its six characters without the dash. *)
Definition soc_dashed (a b c d e f : ascii) : string :=
  String a (String b (String "-" (String c (String d (String e (String f EmptyString)))))).

Definition soc_chars (a b c d e f : ascii) : string :=
  String a (String b (String c (String d (String e (String f EmptyString))))).

(** A response that reports, for each listed identifier, one data point of
    the given year and value. *)
Definition series_with (year value sid : string) : json :=
  JObj [("seriesID", JStr sid);
        ("data", JArr [JObj [("year", JStr year); ("value", JStr value)]])].

Definition response_with (year value : string) (ids : list string) : json :=
  JObj [("status", JStr "REQUEST_SUCCEEDED");
        ("Results", JObj [("series", JArr (series_with year value <$> ids))])].

(** The network that answers every batch with a value for each identifier
    asked for. *)
Definition echo_network : network :=
  λ _ ids, PostBody (response_with "2024" "125000" ids).

(** *** Reading a response

    What [parse_response] looks at in a response, named piece by piece. *)

(** The series a response lists. *)
Definition response_series (response_data : json) : list json :=
  match dict_get response_data "Results" (JObj []) with
  | Ok results =>
      match dict_get results "series" (JArr []) with
      | Ok (JArr items) => items
      | _ => []
      end
  | Raise _ => []
  end.

(** The descriptor a series is recognised as. *)
Definition series_descriptor (series_meta : gmap string descriptor) (series : json)
    : option descriptor :=
  match dict_get series "seriesID" (JStr "") with
  | Ok (JStr sid) => series_meta !! sid
  | _ => None
  end.

(** The data points of a series. *)
Definition series_points (series : json) : list json :=
  match dict_get series "data" (JArr []) with
  | Ok (JArr points) => points
  | _ => []
  end.

(** The data point that is read: the first one, when there is any. *)
Definition first_point (series : json) : option json :=
  match dict_get series "data" (JArr []) with
  | Ok data =>
      if truthy data
      then match first_item data with Ok point => Some point | Raise _ => None end
      else None
  | Raise _ => None
  end.

(** The year of a data point: its own, or the configured survey year when
    it has no year field. *)
Definition point_year (SURVEY_YEAR : Z) (point : json) : result Z :=
  let! y := dict_get point "year" (JInt SURVEY_YEAR) in py_int y.

(** The wage of a data point. *)
Definition point_wage (point : json) : result (option Py.float) :=
  let! v := dict_get point "value" (JStr "") in safe_wage v.

(** The series is recognised as [meta] and the data point read from it
    carries the year [year] and a value that parses to the number [w]. *)
Definition reports (SURVEY_YEAR : Z) (series_meta : gmap string descriptor)
    (series : json) (meta : descriptor) (year : Z) (w : Py.float) : Prop :=
  series_descriptor series_meta series = Some meta
  ∧ ∃ point, first_point series = Some point
      ∧ point_year SURVEY_YEAR point = Ok year
      ∧ point_wage point = Ok (Some w).

(** The series is recognised and the year of the data point read from it
    does not convert to an integer. *)
Definition bad_year (SURVEY_YEAR : Z) (series_meta : gmap string descriptor)
    (series : json) : Prop :=
  is_Some (series_descriptor series_meta series)
  ∧ ∃ point, first_point series = Some point
      ∧ raises (point_year SURVEY_YEAR point).

(** The expected shape of a response: [Results], when present, is an object;
    [series], when present and a list, lists objects whose [seriesID], when
    present, is a string and whose [data], when present, is a list of objects
    whose [value], when present, is a string. *)
Definition absent_or_string (o : option json) : bool :=
  match o with
  | None | Some (JStr _) => true
  | Some _ => false
  end.

Definition point_shaped (point : json) : bool :=
  match point with
  | JObj fields => absent_or_string (assoc "value" fields)
  | _ => false
  end.

Definition series_shaped (series : json) : bool :=
  match series with
  | JObj fields =>
      absent_or_string (assoc "seriesID" fields)
      && match assoc "data" fields with
         | None => true
         | Some (JArr points) => forallb point_shaped points
         | Some _ => false
         end
  | _ => false
  end.

Definition response_shaped (response_data : json) : bool :=
  match response_data with
  | JObj fields =>
      match assoc "Results" fields with
      | None => true
      | Some (JObj results) =>
          match assoc "series" results with
          | Some (JArr items) => forallb series_shaped items
          | _ => true
          end
      | Some _ => false
      end
  | _ => false
  end.

(** Every year field present in a data point of the response converts to an
    integer. *)
Definition year_field_parses (point : json) : bool :=
  match point with
  | JObj fields =>
      match assoc "year" fields with
      | Some y => match py_int y with Ok _ => true | Raise _ => false end
      | None => true
      end
  | _ => true
  end.

Definition year_fields_parse (response_data : json) : bool :=
  forallb (λ series, forallb year_field_parses (series_points series))
    (response_series response_data).

(** The year a data point carries: the integer its year field converts to,
    or the configured survey year when it has no year field. *)
Definition year_carried (SURVEY_YEAR : Z) (point : json) (year : Z) : Prop :=
  match point with
  | JObj fields =>
      match assoc "year" fields with
      | Some y => py_int y = Ok year
      | None => year = SURVEY_YEAR
      end
  | _ => False
  end.

(** The descriptors name wage columns only, as those of [build_all_series]
    do. *)
Definition wage_columns_only (series_meta : gmap string descriptor) : Prop :=
  ∀ sid d, series_meta !! sid = Some d → col_name d ∈ DATA_TYPES.*2.

(** An aggregated row carries the fields of its key and the two titles. *)
Definition row_keyed (k : key) (row : gmap string cell) : Prop :=
  row !! "soc_code" = Some (CStr k.1.1)
  ∧ row !! "msa_code" = Some (CStr k.1.2)
  ∧ row !! "survey_year" = Some (CInt k.2)
  ∧ (∃ t, row !! "soc_title" = Some (CStr t))
  ∧ (∃ n, row !! "msa_name" = Some (CStr n)).

(** The catalog and the settings of the examples. *)
Definition one_occupation : list (string * string) :=
  [("15-1252", "Software Developers")].

Definition public_tier : config := {| BLS_REGKEY := ""; SURVEY_YEAR := 2024 |}.

(** What makes an aggregated row loadable: its record is built, and the row
    proposed from it has no null in the columns of the uniqueness
    constraint. *)
Definition loadable (row_data : gmap string cell) : Prop :=
  ∃ record,
    build_record row_data = Ok record
    ∧ (CNone ∉ unique_key (upsert_row record)).

(** The row proposed from an aggregated row conflicts with a row of the
    table. *)
Definition already_stored (table : list (gmap string cell))
    (row_data : gmap string cell) : Prop :=
  ∃ record,
    build_record row_data = Ok record
    ∧ (CNone ∉ unique_key (upsert_row record))
    ∧ existsb (conflicts (upsert_row record)) table = true.

(** A connection on empty tables, one descriptor and an aggregation of one
    record, for the examples. *)
Definition empty_connection : connection :=
  {| committed := {| bls_wage_data := []; pipeline_run_log := [] |};
     pending := {| bls_wage_data := []; pipeline_run_log := [] |} |}.

Definition denver_mean : descriptor :=
  {| series_id := "OEUM001974000000015125203";
     msa_name := "Denver CO"; msa_code := "19740";
     soc_code := "15-1252"; soc_title := "Software Developers";
     data_type := "03"; col_name := "annual_mean" |}.

Definition one_record : gmap key (gmap string cell) :=
  {[ ("15-1252", "19740", 2024%Z) :=
       <["annual_mean" := CFloat (Py.FDec false 125000 0)]> (new_row denver_mean 2024) ]}.

(** The database that drops the connection at the third insert of a load. *)
Definition third_insert_fails : db_faults :=
  {| upsert_fault := λ i, if (i =? 2)%nat then Some "connection lost" else None;
     commit_fault := None;
     audit_fault := None |}.


Definition is_ok {A} (m : result A) : bool :=
  match m with
  | Ok _ => true
  | Raise _ => false
  end.





(** The response lists a series with this identifier and with data. *)
Definition echoed_with_data (response : json) (sid : string) : Prop :=
  ∃ series data,
    series ∈ response_series response
    ∧ dict_get series "seriesID" (JStr "") = Ok (JStr sid)
    ∧ dict_get series "data" JNull = Ok data
    ∧ truthy data = true.


(** The values of the uniqueness constraint for an aggregation key. *)
Definition stored_key (k : key) : list cell :=
  [CStr k.1.1; CStr k.1.2; CInt k.2].

(** The audit row of a run. *)
Definition audit_row_of (run : run_report) : audit_row :=
  {| pipeline_type := "BLS_OEWS";
     status := final_status run;
     records_requested := default 0 (total_series (final_vars run));
     records_received := v_received (final_vars run);
     records_written := v_written (final_vars run);
     discrepancy_flag :=
       negb (v_received (final_vars run) =? v_written (final_vars run))%nat;
     error_message := final_error run |}.

(** The same faults, but for the audit insert. *)
Definition with_audit_fault (faults : db_faults) (a : option string) : db_faults :=
  {| upsert_fault := upsert_fault faults;
     commit_fault := commit_fault faults;
     audit_fault := a |}.

(** The key has a row in which the column holds a number. *)
Definition column_filled (partial : gmap key (gmap string cell))
    (k : key) (col : string) : Prop :=
  ∃ row w, partial !! k = Some row ∧ row !! col = Some (CFloat w).

(** * Properties *)

(** ** Strings *)

Lemma append_cons (c : ascii) (s t : string) :
  String c s +:+ t = String c (s +:+ t).
Proof. reflexivity. Qed.

Lemma length_append (s t : string) :
  String.length (s +:+ t) = String.length s + String.length t.
Proof.
  induction s as [|c s IH]; [done|]. rewrite append_cons. simpl. by rewrite IH.
Qed.

Lemma length_zeros (n : nat) : String.length (Py.zeros n) = n.
Proof. induction n as [|n IH]; simpl; [done | by rewrite IH]. Qed.

Lemma append_inj_length (s1 s2 t1 t2 : string) :
  String.length s1 = String.length s2 →
  s1 +:+ t1 = s2 +:+ t2 → s1 = s2 ∧ t1 = t2.
Proof.
  revert s2. induction s1 as [|c s1 IH]; intros [|c' s2] Hlen Heq;
    rewrite ?append_cons in Heq; simpl in *; try discriminate; [done|].
  injection Heq as -> Heq. injection Hlen as Hlen.
  destruct (IH _ Hlen Heq) as [-> ->]. done.
Qed.

Lemma digit_not_sign (c : ascii) : Py.is_digit c = true → Py.is_sign c = false.
Proof. destruct c as [[] [] [] [] [] [] [] []]; vm_compute; congruence. Qed.

Lemma digit_not_dash (c : ascii) : Py.is_digit c = true → Ascii.eqb c "-" = false.
Proof. destruct c as [[] [] [] [] [] [] [] []]; vm_compute; congruence. Qed.

Lemma append_empty_r (s : string) : s +:+ EmptyString = s.
Proof. induction s as [|c s IH]; [done | by rewrite append_cons, IH]. Qed.

(** Zero-filling a string of digits pads it on the left. *)
Lemma zfill_digits (w : nat) (s : string) :
  Py.all_chars Py.is_digit s = true → String.length s ≤ w →
  Py.zfill w s = Py.zeros (w - String.length s) +:+ s.
Proof.
  intros Hd Hlen. unfold Py.zfill.
  destruct (Nat.leb_spec w (String.length s)) as [Hle|Hlt].
  - replace (w - String.length s) with 0 by lia. done.
  - destruct s as [|c s]; simpl in *.
    + by rewrite append_empty_r.
    + apply andb_true_iff in Hd as [Hc _]. by rewrite (digit_not_sign c Hc).
Qed.

(** ** The series builder *)

Lemma is_soc_code_inv (s : string) :
  is_soc_code s = true →
  ∃ a b c d e f,
    s = soc_dashed a b c d e f ∧
    Forall (λ x, Py.is_digit x = true) [a; b; c; d; e; f].
Proof.
  destruct s as [|a [|b [|m [|c [|d [|e [|f [|? ?]]]]]]]]; simpl; try discriminate.
  rewrite !andb_true_iff. intros [[[[[[Hm%Ascii.eqb_eq ?] ?] ?] ?] ?] ?]. subst m.
  exists a, b, c, d, e, f. split; [done|]. repeat constructor; done.
Qed.

Lemma soc_to_digits_dashed (a b c d e f : ascii) :
  Forall (λ x, Py.is_digit x = true) [a; b; c; d; e; f] →
  soc_to_digits (soc_dashed a b c d e f) = soc_chars a b c d e f.
Proof.
  intros H. repeat (apply Forall_cons in H as [?%digit_not_dash H]).
  unfold soc_to_digits, soc_dashed. simpl.
  repeat match goal with Hx : Ascii.eqb _ _ = false |- _ => rewrite Hx; clear Hx end.
  done.
Qed.

Lemma area_code_padded (msa : string) :
  is_area_code msa = true →
  msa_to_area_code msa = Py.zeros (7 - String.length msa) +:+ msa
  ∧ String.length (msa_to_area_code msa) = 7.
Proof.
  unfold is_area_code. rewrite andb_true_iff. intros [Hd Hlen%Nat.leb_le].
  unfold msa_to_area_code. rewrite zfill_digits by done.
  split; [done|]. rewrite length_append, length_zeros. lia.
Qed.

(** C3: for an area code of at most seven digits, an occupation code XX-XXXX
    and a two-digit type code, [build_series_id] is the four characters OEUM,
    the area code padded with zeros on the left to seven digits, the industry
    code 000000, the six digits of the occupation code without its dash, and
    the type code; the identifier is 25 characters long. *)
Theorem build_series_id_layout (msa soc dt : string) :
  is_area_code msa = true → is_soc_code soc = true → is_type_code dt = true →
  ∃ a b c d e f,
    soc = soc_dashed a b c d e f
    ∧ build_series_id msa soc dt
      = "OEUM" +:+ (Py.zeros (7 - String.length msa) +:+ msa)
        +:+ "000000" +:+ soc_chars a b c d e f +:+ dt
    ∧ String.length (Py.zeros (7 - String.length msa) +:+ msa) = 7
    ∧ String.length (soc_chars a b c d e f) = 6
    ∧ String.length (build_series_id msa soc dt) = 25.
Proof.
  intros Hmsa Hsoc Hdt.
  destruct (is_soc_code_inv soc Hsoc) as (a & b & c & d & e & f & -> & Hdig).
  destruct (area_code_padded msa Hmsa) as [Harea Hlen].
  apply andb_true_iff in Hdt as [_ Hdt%Nat.eqb_eq].
  exists a, b, c, d, e, f.
  assert (Hid : build_series_id msa (soc_dashed a b c d e f) dt
          = "OEUM" +:+ (Py.zeros (7 - String.length msa) +:+ msa)
            +:+ "000000" +:+ soc_chars a b c d e f +:+ dt).
  { unfold build_series_id, INDUSTRY_CODE.
    by rewrite Harea, soc_to_digits_dashed. }
  rewrite Harea in Hlen.
  split_and!; [done | done | done | done |].
  rewrite Hid. rewrite !length_append in *. unfold soc_chars. simpl. lia.
Qed.

(** The example of the specification: Denver, software developers, annual
    mean. *)
Lemma build_series_id_layout_witness :
  is_area_code "19740" = true ∧ is_soc_code "15-1252" = true
  ∧ is_type_code "03" = true
  ∧ build_series_id "19740" "15-1252" "03"
    = "OEUM" +:+ "0019740" +:+ "000000" +:+ "151252" +:+ "03"
  ∧ String.length (build_series_id "19740" "15-1252" "03") = 25.
Proof.
  destruct (build_series_id_layout "19740" "15-1252" "03" eq_refl eq_refl eq_refl)
    as (a & b & c & d & e & f & Hsoc & Hid & _ & _ & Hlen).
  injection Hsoc as <- <- <- <- <- <-.
  split_and!; [reflexivity | reflexivity | reflexivity | exact Hid | exact Hlen].
Defined.

Lemma msa_codes_are_area_codes (mn mc : string) :
  (mn, mc) ∈ MSA_CODES → is_area_code mc = true.
Proof.
  unfold MSA_CODES. rewrite !elem_of_cons, elem_of_nil.
  intros [H|[H|[H|[H|[H|[]]]]]]; injection H as -> ->; reflexivity.
Qed.

Lemma area_code_of_msa_inj (mn1 mc1 mn2 mc2 : string) :
  (mn1, mc1) ∈ MSA_CODES → (mn2, mc2) ∈ MSA_CODES →
  msa_to_area_code mc1 = msa_to_area_code mc2 → mn1 = mn2 ∧ mc1 = mc2.
Proof.
  unfold MSA_CODES. rewrite !elem_of_cons, !elem_of_nil.
  intros [H1|[H1|[H1|[H1|[H1|[]]]]]] [H2|[H2|[H2|[H2|[H2|[]]]]]];
    injection H1 as -> ->; injection H2 as -> ->;
    vm_compute; intros; split; congruence.
Qed.

(** In a dict given by its items, a key has one value. *)
Lemma items_functional {A B} (l : list (A * B)) (k : A) (v1 v2 : B) :
  NoDup l.*1 → (k, v1) ∈ l → (k, v2) ∈ l → v1 = v2.
Proof.
  induction l as [|[k' v'] l IH]; csimpl; [by intros _ ?%elem_of_nil|].
  intros [Hn Hnd]%NoDup_cons. rewrite !elem_of_cons.
  intros [H1|H1] [H2|H2]; [congruence| | |by apply IH].
  - injection H1 as -> ->. destruct Hn. apply list_elem_of_fmap. by exists (k', v2).
  - injection H2 as -> ->. destruct Hn. apply list_elem_of_fmap. by exists (k', v1).
Qed.

Lemma data_types_nodup : NoDup DATA_TYPES.*1.
Proof. apply (bool_decide_unpack _). vm_compute. exact I. Qed.

(** Identifiers built from a listed area code and an occupation code XX-XXXX
    determine their three ingredients. *)
Lemma build_series_id_inj (mn1 mc1 mn2 mc2 s1 s2 d1 d2 : string) :
  (mn1, mc1) ∈ MSA_CODES → (mn2, mc2) ∈ MSA_CODES →
  is_soc_code s1 = true → is_soc_code s2 = true →
  build_series_id mc1 s1 d1 = build_series_id mc2 s2 d2 →
  mn1 = mn2 ∧ mc1 = mc2 ∧ s1 = s2 ∧ d1 = d2.
Proof.
  intros Hm1 Hm2
    (a1 & b1 & c1 & e1 & f1 & g1 & -> & Hd1)%is_soc_code_inv
    (a2 & b2 & c2 & e2 & f2 & g2 & -> & Hd2)%is_soc_code_inv.
  unfold build_series_id. rewrite !soc_to_digits_dashed by done.
  intros Heq.
  apply append_inj_length in Heq as [_ Heq]; [|done].
  apply append_inj_length in Heq as [Harea Heq].
  2: { pose proof (area_code_padded mc1 (msa_codes_are_area_codes _ _ Hm1)) as [_ ->].
       by pose proof (area_code_padded mc2 (msa_codes_are_area_codes _ _ Hm2)) as [_ ->]. }
  apply append_inj_length in Heq as [_ Heq]; [|done].
  apply append_inj_length in Heq as [Hsoc Heq]; [|done].
  destruct (area_code_of_msa_inj _ _ _ _ Hm1 Hm2 Harea) as [-> ->].
  injection Hsoc as -> -> -> -> -> ->. done.
Qed.

Lemma elem_of_build_all_series (d : descriptor) (soc_map : list (string * string)) :
  d ∈ build_all_series soc_map ↔
  ∃ mn mc sc st dt col,
    (mn, mc) ∈ MSA_CODES ∧ (sc, st) ∈ soc_map ∧ (dt, col) ∈ DATA_TYPES
    ∧ d = {| series_id := build_series_id mc sc dt; msa_name := mn;
             msa_code := mc; soc_code := sc; soc_title := st;
             data_type := dt; col_name := col |}.
Proof.
  unfold build_all_series. rewrite list_elem_of_bind. split.
  - intros ([mn mc] & Hin & ?).
    apply list_elem_of_bind in Hin as ([sc st] & Hin & ?).
    apply list_elem_of_bind in Hin as ([dt col] & Hd & ?).
    apply list_elem_of_singleton in Hd. by exists mn, mc, sc, st, dt, col.
  - intros (mn & mc & sc & st & dt & col & ? & ? & ? & ->).
    exists (mn, mc). split; [|done]. apply list_elem_of_bind.
    exists (sc, st). split; [|done]. apply list_elem_of_bind.
    exists (dt, col). split; [|done]. by apply list_elem_of_singleton.
Qed.

Lemma length_bind_const {A B} (f : A → list B) (l : list A) (n : nat) :
  (∀ x, length (f x) = n) → length (l ≫= f) = n * length l.
Proof.
  intros Hf. induction l as [|x l IH]; [simpl; lia|].
  rewrite bind_cons, length_app, Hf, IH. simpl. lia.
Qed.

Lemma length_build_all_series (soc_map : list (string * string)) :
  length (build_all_series soc_map) = 30 * length soc_map.
Proof.
  unfold build_all_series.
  rewrite (length_bind_const _ _ (6 * length soc_map)); [simpl; lia|].
  intros [mn mc]. apply length_bind_const.
  intros [sc st]. reflexivity.
Qed.

Lemma nodup_build_all_series (soc_map : list (string * string)) :
  NoDup soc_map.*1 → NoDup (build_all_series soc_map).
Proof.
  intros Hnd. unfold build_all_series.
  assert (Hmsa : NoDup MSA_CODES)
    by (apply (bool_decide_unpack _); vm_compute; exact I).
  assert (Hdt : NoDup DATA_TYPES)
    by (apply (bool_decide_unpack _); vm_compute; exact I).
  apply NoDup_bind; [| |done].
  - intros [mn1 mc1] [mn2 mc2] d _ _ H1 H2.
    apply list_elem_of_bind in H1 as ([sc1 st1] & H1 & _).
    apply list_elem_of_bind in H1 as ([dt1 col1] & ->%list_elem_of_singleton & _).
    apply list_elem_of_bind in H2 as ([sc2 st2] & H2 & _).
    apply list_elem_of_bind in H2 as ([dt2 col2] & H2%list_elem_of_singleton & _).
    by injection H2 as _ -> -> _ _ _ _.
  - intros [mn mc] _. apply NoDup_bind; [| |by eapply NoDup_fmap_1].
    + intros [sc1 st1] [sc2 st2] d _ _ H1 H2.
      apply list_elem_of_bind in H1 as ([dt1 col1] & ->%list_elem_of_singleton & _).
      apply list_elem_of_bind in H2 as ([dt2 col2] & H2%list_elem_of_singleton & _).
      by injection H2 as _ -> -> _ _.
    + intros [sc st] _. apply NoDup_bind; [| |done].
      * intros [dt1 col1] [dt2 col2] d _ _ ->%list_elem_of_singleton H2%list_elem_of_singleton.
        by injection H2 as _ -> ->.
      * intros [dt col] _. apply NoDup_singleton.
Qed.

(** On a catalog of distinct codes XX-XXXX the identifier determines the
    descriptor. *)
Lemma series_id_inj_on_build (soc_map : list (string * string)) (d1 d2 : descriptor) :
  NoDup soc_map.*1 → Forall (λ c, is_soc_code c = true) soc_map.*1 →
  d1 ∈ build_all_series soc_map → d2 ∈ build_all_series soc_map →
  series_id d1 = series_id d2 → d1 = d2.
Proof.
  intros Hnd Hsoc
    (mn1 & mc1 & sc1 & st1 & dt1 & col1 & Hm1 & Hs1 & Ht1 & ->)%elem_of_build_all_series
    (mn2 & mc2 & sc2 & st2 & dt2 & col2 & Hm2 & Hs2 & Ht2 & ->)%elem_of_build_all_series.
  simpl. intros Hid.
  rewrite Forall_forall in Hsoc.
  assert (Hc1 : is_soc_code sc1 = true)
    by (apply Hsoc, list_elem_of_fmap; by exists (sc1, st1)).
  assert (Hc2 : is_soc_code sc2 = true)
    by (apply Hsoc, list_elem_of_fmap; by exists (sc2, st2)).
  destruct (build_series_id_inj _ _ _ _ _ _ _ _ Hm1 Hm2 Hc1 Hc2 Hid)
    as (-> & -> & -> & ->).
  rewrite (items_functional _ _ _ _ Hnd Hs1 Hs2).
  by rewrite (items_functional _ _ _ _ data_types_nodup Ht1 Ht2).
Qed.

(** C2: on a catalog of [N] occupation codes, pairwise distinct as the keys
    of a dict are and of the form XX-XXXX as occupation codes are,
    [build_all_series] returns exactly [30 * N] descriptors, no two of which
    carry the same identifier.  (The count holds for every catalog, see
    [length_build_all_series]; the function is deterministic by
    construction.) *)
Theorem build_all_series_count_distinct (soc_map : list (string * string)) :
  NoDup soc_map.*1 → Forall (λ c, is_soc_code c = true) soc_map.*1 →
  length (build_all_series soc_map) = 30 * length soc_map
  ∧ NoDup (series_id <$> build_all_series soc_map).
Proof.
  intros Hnd Hsoc. split; [apply length_build_all_series|].
  apply NoDup_fmap_2_strong; [|by apply nodup_build_all_series].
  intros d1 d2 ???. by apply (series_id_inj_on_build soc_map).
Qed.

Lemma build_all_series_count_distinct_witness :
  length (build_all_series [("15-1252", "Software Developers"); ("13-2011", "Accountants and Auditors")]) = 60
  ∧ NoDup (series_id <$> build_all_series
             [("15-1252", "Software Developers"); ("13-2011", "Accountants and Auditors")]).
Proof.
  apply (build_all_series_count_distinct
           [("15-1252", "Software Developers"); ("13-2011", "Accountants and Auditors")]).
  - apply (bool_decide_unpack _). vm_compute. exact I.
  - repeat constructor.
Defined.

(** The format of the codes matters: keys that are no occupation codes, such
    as a code written once with and once without its dash, are distinct and
    yet give the same identifiers. *)
Lemma build_all_series_collision :
  let soc_map := [("15-1252", "Software Developers"); ("151252", "Software Developers")] in
  NoDup soc_map.*1
  ∧ soc_map ≠ []
  ∧ build_series_id "12420" "15-1252" "03" = build_series_id "12420" "151252" "03"
  ∧ ¬ NoDup (series_id <$> build_all_series soc_map).
Proof.
  split_and!.
  - apply (bool_decide_unpack _). vm_compute. exact I.
  - done.
  - reflexivity.
  - apply (bool_decide_eq_false_1 _). vm_compute. reflexivity.
Qed.

(** ** The suppression-aware parser *)

(** C4: [safe_wage] maps the five sentinels to absent, "125000" to the number
    125000 (mantissa 125000, exponent 0), "12x" to absent, and returns on
    every string: a number or absent, never an exception. *)
Theorem safe_wage_strings :
  safe_wage (JStr "-") = Ok None
  ∧ safe_wage (JStr "**") = Ok None
  ∧ safe_wage (JStr "N/A") = Ok None
  ∧ safe_wage (JStr "NA") = Ok None
  ∧ safe_wage (JStr "") = Ok None
  ∧ safe_wage (JStr "125000") = Ok (Some (Py.FDec false 125000 0))
  ∧ safe_wage (JStr "12x") = Ok None
  ∧ ∀ s : string, safe_wage (JStr s) = Ok None ∨ ∃ f, safe_wage (JStr s) = Ok (Some f).
Proof.
  split_and!; try reflexivity.
  intros s. unfold safe_wage, py_float.
  destruct (bool_decide _); [by left|].
  destruct (Py.float_of_string _) as [f|]; [right; by exists f | by left].
Qed.

(** ** Aggregation across batches *)

(** C1 fails on the code.  One occupation, no registration key (25 series
    per request), every series answered: the 30 results parsed from one
    response give Denver all its columns; the same results as the pipeline
    batches them (25 + 5) leave Denver without its annual mean, because
    [master.update(partial)] replaces the row of the first batch by the row
    of the second. *)
Theorem master_update_drops_columns :
  let cfg := {| BLS_REGKEY := ""; SURVEY_YEAR := 2024 |} in
  let all_series := build_all_series [("15-1252", "Software Developers")] in
  let series_meta := series_meta_of all_series in
  let batches := batches_of (BATCH_SIZE cfg) all_series in
  let denver : key := ("15-1252", "19740", 2024%Z) in
  ∃ whole st,
    parse_response 2024 (response_with "2024" "125000" (series_id <$> all_series))
      series_meta = Ok whole
    ∧ run_batches cfg echo_network series_meta (enumerate1 batches) initial_state
      = (st, None)
    ∧ length <$> batches = [25; 5]
    ∧ dom (master st) = dom whole
    ∧ whole !! denver ≫= (.!! "annual_mean") = Some (CFloat (Py.FDec false 125000 0))
    ∧ master st !! denver ≫= (.!! "annual_mean") = None
    ∧ master st ≠ whole.
Proof.
  intros cfg all_series series_meta batches denver.
  set (parsed := parse_response _ _ _).
  set (ran := run_batches _ _ _ _ _).
  assert (H1 : match parsed with
               | Ok w => w !! denver ≫= (.!! "annual_mean")
               | Raise _ => None
               end = Some (CFloat (Py.FDec false 125000 0)))
    by (vm_compute; reflexivity).
  assert (H2 : ran.2 = None) by (vm_compute; reflexivity).
  assert (H3 : master ran.1 !! denver ≫= (.!! "annual_mean") = None)
    by (vm_compute; reflexivity).
  assert (H4 : match parsed with
               | Ok w => bool_decide (dom (master ran.1) = dom w)
               | Raise _ => false
               end = true)
    by (vm_compute; reflexivity).
  assert (H5 : length <$> batches = [25; 5]) by (vm_compute; reflexivity).
  destruct parsed as [whole|]; [|discriminate].
  destruct ran as [st exc]. simpl in *. subst exc.
  exists whole, st. split_and!; try done.
  - by apply bool_decide_eq_true in H4.
  - intros Heq. rewrite Heq, H1 in H3. discriminate.
Qed.

(** ** The response aggregator *)

Lemma rbind_ok {A B} (m : result A) (k : A → result B) (b : B) :
  rbind m k = Ok b → ∃ a, m = Ok a ∧ k a = Ok b.
Proof. destruct m as [a|e]; simpl; [by exists a | discriminate]. Qed.

Lemma rbind_raise {A B} (m : result A) (k : A → result B) (e : exn) :
  rbind m k = Raise e → m = Raise e ∨ ∃ a, m = Ok a ∧ k a = Raise e.
Proof.
  destruct m as [a|e']; simpl; intros H; [right; by exists a|].
  injection H as ->. by left.
Qed.

Lemma meta_get_some (series_meta : gmap string descriptor) (sid : json) (meta : descriptor) :
  meta_get series_meta sid = Ok (Some meta) ↔
  ∃ s, sid = JStr s ∧ series_meta !! s = Some meta.
Proof.
  split.
  - destruct sid; simpl; try discriminate. intros [= H]. eauto.
  - intros (s & -> & H). simpl. by rewrite H.
Qed.

(** One step of the loop of [parse_response]: the keys afterwards are the
    keys before and, when the series reports a number, its key. *)
Lemma parse_series_keys (SY : Z) (series_meta : gmap string descriptor)
    (partial partial' : gmap key (gmap string cell)) (series : json) (k : key) :
  parse_series SY series_meta partial series = Ok partial' →
  is_Some (partial' !! k) ↔
  is_Some (partial !! k)
  ∨ ∃ meta year w, reports SY series_meta series meta year w
      ∧ k = (soc_code meta, msa_code meta, year).
Proof.
  unfold parse_series, reports, series_descriptor, first_point, point_year, point_wage.
  destruct (dict_get series "seriesID" (JStr "")) as [sid|] eqn:Hsid; simpl; [|discriminate].
  destruct (meta_get series_meta sid) as [[meta|]|] eqn:Hmeta; simpl; [| |discriminate].
  2: { intros [= <-]. split; [by left|]. intros [?|(m & y & w & [Hm _] & _)]; [done|].
       destruct sid; simpl in *; congruence. }
  apply meta_get_some in Hmeta as (s & -> & Hs).
  destruct (dict_get series "data" (JArr [])) as [data|] eqn:Hdata; simpl; [|discriminate].
  destruct (truthy data) eqn:Htruthy; simpl.
  2: { intros [= <-]. split; [by left|].
       by intros [?|(m & y & w & [_ (p & ? & _)] & _)]. }
  destruct (first_item data) as [point|] eqn:Hpoint; simpl; [|discriminate].
  destruct (dict_get point "year" (JInt SY)) as [y|] eqn:Hy; simpl; [|discriminate].
  destruct (py_int y) as [year|] eqn:Hyear; simpl; [|discriminate].
  destruct (dict_get point "value" (JStr "")) as [v|] eqn:Hv; simpl; [|discriminate].
  destruct (safe_wage v) as [[w|]|] eqn:Hw; simpl; [| |discriminate].
  - intros [= <-]. rewrite lookup_insert_is_Some. split.
    + intros [<-|[_ ?]]; [right|by left]. exists meta, year, w.
      split_and!; [done| |done]. exists point. by rewrite Hy, Hv.
    + intros [?|(m & y' & w' & [Hm (p & Hp & Hy' & _)] & ->)].
      * destruct (decide ((soc_code meta, msa_code meta, year) = k)); auto.
      * left. injection Hp as <-. rewrite Hy in Hy'. simpl in Hy'. congruence.
  - intros [= <-]. split; [by left|].
    intros [?|(m & y' & w' & [_ (p & Hp & _ & Hw')] & _)]; [done|].
    injection Hp as <-. rewrite Hv in Hw'. simpl in Hw'. congruence.
Qed.

Lemma for_each_parse_series_keys (SY : Z) (series_meta : gmap string descriptor)
    (items : list json) (partial partial' : gmap key (gmap string cell)) (k : key) :
  for_each (parse_series SY series_meta) items partial = Ok partial' →
  is_Some (partial' !! k) ↔
  is_Some (partial !! k)
  ∨ ∃ series meta year w, series ∈ items
      ∧ reports SY series_meta series meta year w
      ∧ k = (soc_code meta, msa_code meta, year).
Proof.
  revert partial. induction items as [|series items IH]; intros partial; simpl.
  - intros [= <-]. split; [by left|]. by intros [?|(? & ? & ? & ? & ?%elem_of_nil & _)].
  - intros (p1 & H1 & Hrest)%rbind_ok.
    rewrite (IH _ Hrest), (parse_series_keys _ _ _ _ _ _ H1). split.
    + intros [[?|(m & y & w & ? & ?)]|(s & m & y & w & ? & ? & ?)]; [by left| |].
      * right. exists series, m, y, w. split_and!; [left|done|done].
      * right. exists s, m, y, w. split_and!; [by right|done|done].
    + intros [?|(s & m & y & w & [->|?]%elem_of_cons & ? & ?)]; [by left; left| |].
      * left; right. by exists m, y, w.
      * right. by exists s, m, y, w.
Qed.

(** The keys of a parsed response are the keys its series report. *)
Lemma parse_response_keys (SY : Z) (response_data : json)
    (series_meta : gmap string descriptor)
    (partial : gmap key (gmap string cell)) (k : key) :
  parse_response SY response_data series_meta = Ok partial →
  is_Some (partial !! k) ↔
  ∃ series meta year w, series ∈ response_series response_data
    ∧ reports SY series_meta series meta year w
    ∧ k = (soc_code meta, msa_code meta, year).
Proof.
  unfold parse_response, response_series.
  intros (results & -> & (series_list & -> & H)%rbind_ok)%rbind_ok.
  destruct series_list as [| | | | |items|];
    try (injection H as <-; rewrite lookup_empty; split;
         [by intros [? ?] | by intros (? & ? & ? & ? & ?%elem_of_nil & _)]).
  rewrite (for_each_parse_series_keys _ _ _ _ _ _ H), lookup_empty.
  split; [intros [[? ?]|?]; done | by right].
Qed.

(** One iteration of the batch loop: the keys of [master] afterwards are the
    keys before and the keys reported by the series of the batch's response. *)
Lemma process_batch_keys (cfg : config) (net : network)
    (series_meta : gmap string descriptor) (st st' : loop_state)
    (nb : nat * list descriptor) (k : key) :
  process_batch cfg net series_meta st nb = Ok st' →
  is_Some (master st' !! k) ↔
  is_Some (master st !! k)
  ∨ ∃ response series meta year w,
      fetch_bls_batch (net nb.1 (series_id <$> nb.2)) = Ok (Some response)
      ∧ series ∈ response_series response
      ∧ reports (SURVEY_YEAR cfg) series_meta series meta year w
      ∧ k = (soc_code meta, msa_code meta, year).
Proof.
  destruct nb as [n batch]. unfold process_batch. simpl.
  intros ([response|] & Hfetch & H)%rbind_ok; rewrite Hfetch.
  - apply rbind_ok in H as (partial & Hparse & (returned & _ & [= <-])%rbind_ok).
    simpl. rewrite lookup_union_is_Some, (parse_response_keys _ _ _ _ _ Hparse).
    split.
    + intros [(s & m & y & w & ? & ? & ?)|?]; [right|by left].
      by exists response, s, m, y, w.
    + intros [?|(r & s & m & y & w & [= <-] & ? & ? & ?)]; [by right|left].
      by exists s, m, y, w.
  - injection H as <-. simpl. split; [by left|].
    by intros [?|(? & ? & ? & ? & ? & ? & _)].
Qed.

Lemma run_batches_keys (cfg : config) (net : network)
    (series_meta : gmap string descriptor)
    (numbered : list (nat * list descriptor)) (st0 : loop_state) (k : key) :
  (run_batches cfg net series_meta numbered st0).2 = None →
  is_Some (master (run_batches cfg net series_meta numbered st0).1 !! k) ↔
  is_Some (master st0 !! k)
  ∨ ∃ nb response series meta year w,
      nb ∈ numbered
      ∧ fetch_bls_batch (net nb.1 (series_id <$> nb.2)) = Ok (Some response)
      ∧ series ∈ response_series response
      ∧ reports (SURVEY_YEAR cfg) series_meta series meta year w
      ∧ k = (soc_code meta, msa_code meta, year).
Proof.
  revert st0. induction numbered as [|nb rest IH]; intros st0; simpl.
  - intros _. split; [by left|].
    by intros [?|(? & ? & ? & ? & ? & ? & ?%elem_of_nil & _)].
  - destruct (process_batch cfg net series_meta st0 nb) as [st1|e] eqn:Hstep;
      [|discriminate].
    intros Hrest. rewrite (IH _ Hrest), (process_batch_keys _ _ _ _ _ _ _ Hstep).
    split.
    + intros [[?|(r & s & m & y & w & ? & ? & ? & ?)]
             |(nb' & r & s & m & y & w & ? & ? & ? & ? & ?)]; [by left| |].
      * right. exists nb, r, s, m, y, w. split_and!; [left|..]; done.
      * right. exists nb', r, s, m, y, w. split_and!; [by right|..]; done.
    + intros [?|(nb' & r & s & m & y & w & [->|?]%elem_of_cons & ? & ? & ? & ?)];
        [by left; left| |].
      * left; right. by exists r, s, m, y, w.
      * right. by exists nb', r, s, m, y, w.
Qed.

(** C5: when the batch loop has run to its end, a record keyed by
    (occupation code, geography code, year) is in the aggregation if and only
    if, in the response of some batch, a series recognised as that occupation
    and geography reported, for that year, a value that parsed to a number. *)
Theorem record_iff_value_reported (cfg : config) (net : network)
    (series_meta : gmap string descriptor)
    (numbered : list (nat * list descriptor)) (k : key) :
  (run_batches cfg net series_meta numbered initial_state).2 = None →
  is_Some (master (run_batches cfg net series_meta numbered initial_state).1 !! k) ↔
  ∃ nb response series meta year w,
    nb ∈ numbered
    ∧ fetch_bls_batch (net nb.1 (series_id <$> nb.2)) = Ok (Some response)
    ∧ series ∈ response_series response
    ∧ reports (SURVEY_YEAR cfg) series_meta series meta year w
    ∧ k = (soc_code meta, msa_code meta, year).
Proof.
  intros Hend. rewrite (run_batches_keys _ _ _ _ _ _ Hend).
  unfold initial_state. simpl. rewrite lookup_empty.
  split; [intros [[? ?]|?]; done | by right].
Qed.

Lemma record_iff_value_reported_witness :
  let series_meta := series_meta_of (build_all_series one_occupation) in
  let numbered :=
    enumerate1 (batches_of (BATCH_SIZE public_tier) (build_all_series one_occupation)) in
  let ran := run_batches public_tier echo_network series_meta numbered initial_state in
  ran.2 = None
  ∧ (is_Some (master ran.1 !! ("15-1252", "19740", 2024%Z)) ↔
     ∃ nb response series meta year w,
       nb ∈ numbered
       ∧ fetch_bls_batch (echo_network nb.1 (series_id <$> nb.2)) = Ok (Some response)
       ∧ series ∈ response_series response
       ∧ reports (SURVEY_YEAR public_tier) series_meta series meta year w
       ∧ ("15-1252", "19740", 2024%Z) = (soc_code meta, msa_code meta, year)).
Proof.
  split.
  - vm_compute. reflexivity.
  - apply (record_iff_value_reported public_tier echo_network).
    vm_compute. reflexivity.
Defined.

(** ** Rows of the aggregation *)

Lemma wage_column_not_field (col : string) :
  col ∈ DATA_TYPES.*2 →
  col ≠ "soc_code" ∧ col ≠ "soc_title" ∧ col ≠ "msa_code"
  ∧ col ≠ "msa_name" ∧ col ≠ "survey_year".
Proof.
  unfold DATA_TYPES. simpl. rewrite !elem_of_cons, !elem_of_nil.
  intros [->|[->|[->|[->|[->|[->|[]]]]]]]; split_and!; discriminate.
Qed.

Lemma row_keyed_new_row (meta : descriptor) (year : Z) :
  row_keyed (soc_code meta, msa_code meta, year) (new_row meta year).
Proof.
  unfold row_keyed, new_row. simpl. split_and!; [| | |eexists|eexists];
    repeat (rewrite lookup_insert_ne by discriminate); by rewrite lookup_insert_eq.
Qed.

Lemma row_keyed_insert_wage (k : key) (row : gmap string cell) (col : string) (c : cell) :
  col ∈ DATA_TYPES.*2 → row_keyed k row → row_keyed k (<[col := c]> row).
Proof.
  intros (? & ? & ? & ? & ?)%wage_column_not_field (? & ? & ? & ? & ?).
  unfold row_keyed. by rewrite !lookup_insert_ne.
Qed.

Lemma parse_series_rows (SY : Z) (series_meta : gmap string descriptor)
    (partial partial' : gmap key (gmap string cell)) (series : json) :
  wage_columns_only series_meta →
  map_Forall row_keyed partial →
  parse_series SY series_meta partial series = Ok partial' →
  map_Forall row_keyed partial'.
Proof.
  intros Hcols Hinv. unfold parse_series.
  intros (sid & _ & ([meta|] & Hmeta & H)%rbind_ok)%rbind_ok; [|by injection H as <-].
  apply meta_get_some in Hmeta as (s & -> & Hs).
  apply rbind_ok in H as (data & _ & H).
  destruct (negb (truthy data)); [by injection H as <-|].
  apply rbind_ok in H as (point & _ & (y & _ & (year & _ &
    (v & _ & ([w|] & _ & H)%rbind_ok)%rbind_ok)%rbind_ok)%rbind_ok);
    injection H as <-; [|done].
  apply map_Forall_insert_2; [|done].
  apply row_keyed_insert_wage; [by eapply Hcols|].
  destruct (partial !! _) as [row|] eqn:Hrow; simpl;
    [by apply (Hinv _ _ Hrow) | apply row_keyed_new_row].
Qed.

Lemma for_each_parse_series_rows (SY : Z) (series_meta : gmap string descriptor)
    (items : list json) (partial partial' : gmap key (gmap string cell)) :
  wage_columns_only series_meta →
  map_Forall row_keyed partial →
  for_each (parse_series SY series_meta) items partial = Ok partial' →
  map_Forall row_keyed partial'.
Proof.
  intros Hcols. revert partial.
  induction items as [|series items IH]; intros partial Hinv; simpl.
  - by intros [= <-].
  - intros (p1 & H1 & Hrest)%rbind_ok.
    eapply IH; [|done]. by eapply parse_series_rows.
Qed.

Lemma parse_response_rows (SY : Z) (response_data : json)
    (series_meta : gmap string descriptor) (partial : gmap key (gmap string cell)) :
  wage_columns_only series_meta →
  parse_response SY response_data series_meta = Ok partial →
  map_Forall row_keyed partial.
Proof.
  intros Hcols. unfold parse_response.
  intros (results & _ & (series_list & _ & H)%rbind_ok)%rbind_ok.
  destruct series_list; try (injection H as <-; apply map_Forall_empty).
  eapply for_each_parse_series_rows; [done| |done]. apply map_Forall_empty.
Qed.

Lemma point_year_carried (SY : Z) (point : json) (year : Z) :
  point_year SY point = Ok year ↔ year_carried SY point year.
Proof.
  unfold point_year, year_carried.
  destruct point as [| | | | | |fields]; simpl; try (split; [discriminate|done]).
  destruct (assoc "year" fields) as [y|]; simpl; [done|].
  split; [by intros [= ->] | by intros ->].
Qed.

Lemma elem_of_series_meta_of (all_series : list descriptor) (sid : string) (d : descriptor) :
  series_meta_of all_series !! sid = Some d → d ∈ all_series ∧ series_id d = sid.
Proof.
  unfold series_meta_of.
  assert (H : ∀ m : gmap string descriptor,
    (∀ d', m !! sid = Some d' → d' ∈ all_series ∧ series_id d' = sid) →
    ∀ l, (∀ x, x ∈ l → x ∈ all_series) →
    foldl (λ m s, <[series_id s := s]> m) m l !! sid = Some d →
    d ∈ all_series ∧ series_id d = sid).
  { intros m Hm l. revert m Hm. induction l as [|x l IH]; intros m Hm Hl; simpl.
    - apply Hm.
    - apply IH; [|intros; apply Hl; by right].
      intros d'. destruct (decide (series_id x = sid)) as [<-|Hne].
      + rewrite lookup_insert_eq. intros [= <-]. split; [apply Hl; left|done].
      + rewrite lookup_insert_ne by done. apply Hm. }
  apply H; [|done]. intros d'. by rewrite lookup_empty.
Qed.

(** The descriptors of the series builder name wage columns only. *)
Lemma wage_columns_only_build (soc_map : list (string * string)) :
  wage_columns_only (series_meta_of (build_all_series soc_map)).
Proof.
  intros sid d [Hd _]%elem_of_series_meta_of.
  apply elem_of_build_all_series in Hd
    as (mn & mc & sc & st & dt & col & _ & _ & Hdt & ->).
  change (col ∈ DATA_TYPES.*2). apply list_elem_of_fmap. by exists (dt, col).
Qed.

Lemma column_insert_eq (r : gmap string cell) (col : string) (c : cell) :
  column (<[col := c]> r) col = c.
Proof. unfold column. by rewrite lookup_insert_eq. Qed.

Lemma column_insert_ne (r : gmap string cell) (col col' : string) (c : cell) :
  col ≠ col' → column (<[col := c]> r) col' = column r col'.
Proof. intros. unfold column. by rewrite lookup_insert_ne. Qed.

(** The record built from a keyed row binds the fields of the key. *)
Lemma build_record_keyed (k : key) (row : gmap string cell) :
  row_keyed k row →
  ∃ record,
    build_record row = Ok record
    ∧ column record "soc_code" = CStr k.1.1
    ∧ column record "msa_code" = CStr k.1.2
    ∧ column record "survey_year" = CInt k.2.
Proof.
  intros (Hsoc & Hmsa & Hyear & [t Ht] & [n Hn]).
  unfold build_record, row_item. rewrite Hsoc, Hmsa, Hyear, Ht, Hn. simpl.
  eexists. split; [done|].
  split_and!; repeat (rewrite column_insert_ne by discriminate);
    by rewrite column_insert_eq.
Qed.

(** The row proposed for insertion holds, in the three columns of the
    uniqueness constraint, the parameters bound to them. *)
Lemma upsert_row_key (record : gmap string cell) :
  column (upsert_row record) "soc_code" = column record "soc_code"
  ∧ column (upsert_row record) "msa_code" = column record "msa_code"
  ∧ column (upsert_row record) "reference_year" = column record "survey_year".
Proof.
  unfold upsert_row. simpl.
  split_and!; repeat (rewrite column_insert_ne by discriminate);
    by rewrite column_insert_eq.
Qed.

(** C9: every record of a parsed response is keyed by the year its data
    point carries — the integer the point's year field converts to, or the
    configured survey year when the point has no year field — whatever year
    was requested; the row holds that year and the loader stores the row
    under it. *)
Theorem records_keyed_by_reported_year (SY : Z) (response_data : json)
    (series_meta : gmap string descriptor)
    (partial : gmap key (gmap string cell)) (k : key) (row : gmap string cell) :
  wage_columns_only series_meta →
  parse_response SY response_data series_meta = Ok partial →
  partial !! k = Some row →
  (∃ series meta point w,
      series ∈ response_series response_data
      ∧ series_descriptor series_meta series = Some meta
      ∧ first_point series = Some point
      ∧ point_wage point = Ok (Some w)
      ∧ k.1 = (soc_code meta, msa_code meta)
      ∧ year_carried SY point k.2)
  ∧ row !! "survey_year" = Some (CInt k.2)
  ∧ ∃ record,
      build_record row = Ok record
      ∧ column (upsert_row record) "reference_year" = CInt k.2.
Proof.
  intros Hcols Hparse Hrow.
  pose proof (parse_response_rows _ _ _ _ Hcols Hparse k row Hrow) as Hkeyed.
  split_and!.
  - assert (Hsome : is_Some (partial !! k)) by (by rewrite Hrow).
    apply (parse_response_keys _ _ _ _ _ Hparse) in Hsome
      as (series & meta & year & w & Hin & [Hmeta (point & Hpoint & Hyear & Hwage)] & ->).
    exists series, meta, point, w. split_and!; try done.
    by apply point_year_carried.
  - apply Hkeyed.
  - destruct (build_record_keyed k row Hkeyed) as (record & Hrec & _ & _ & Hyear).
    exists record. split; [done|].
    by destruct (upsert_row_key record) as (_ & _ & ->).
Qed.

(** A response that reports 2023 while 2024 is configured: the record is
    keyed and stored under 2023. *)
Lemma records_keyed_by_reported_year_witness :
  let series_meta := series_meta_of (build_all_series one_occupation) in
  let response := response_with "2023" "125000" ["OEUM001974000000015125203"] in
  let k : key := ("15-1252", "19740", 2023%Z) in
  ∃ partial row,
    parse_response 2024 response series_meta = Ok partial
    ∧ partial !! k = Some row
    ∧ row !! "survey_year" = Some (CInt 2023)
    ∧ ∃ record,
        build_record row = Ok record
        ∧ column (upsert_row record) "reference_year" = CInt 2023.
Proof.
  intros series_meta response k.
  pose (parsed := parse_response 2024 response series_meta).
  assert (Hparse : parse_response 2024 response series_meta = parsed) by reflexivity.
  assert (Hrow : match parsed with
                 | Ok p => bool_decide (is_Some (p !! k))
                 | Raise _ => false
                 end = true)
    by (vm_compute; reflexivity).
  clearbody parsed. destruct parsed as [partial|e]; [|discriminate Hrow].
  apply bool_decide_eq_true in Hrow as [row Hrow].
  exists partial, row. split_and!; [done|done|..];
    apply (records_keyed_by_reported_year 2024 response series_meta partial k row
             (wage_columns_only_build one_occupation) Hparse Hrow).
Defined.

(** ** Exceptions of the response aggregator *)

Lemma safe_wage_total (s : string) : ∃ r, safe_wage (JStr s) = Ok r.
Proof.
  unfold safe_wage, py_float. destruct (bool_decide _); [by eexists|].
  destruct (Py.float_of_string _); by eexists.
Qed.

Lemma returns_or_raises {A} (m : result A) : returns m ∨ raises m.
Proof. destruct m as [a|e]; [left; by exists a | right; by exists e]. Qed.

(** On a series of the expected shape, the loop body raises exactly when the
    year of the data point it reads does not convert. *)
Lemma parse_series_raises (SY : Z) (series_meta : gmap string descriptor)
    (partial : gmap key (gmap string cell)) (series : json) :
  series_shaped series = true →
  raises (parse_series SY series_meta partial series) ↔ bad_year SY series_meta series.
Proof.
  unfold series_shaped, bad_year, parse_series, series_descriptor, first_point, point_year.
  destruct series as [| | | | | |fields]; try discriminate.
  intros [Hsid Hdata]%andb_true_iff. simpl.
  destruct (default (JStr "") (assoc "seriesID" fields)) as [| | | |sid| |] eqn:Hs;
    try (destruct (assoc "seriesID" fields) as [[]|]; simpl in *; discriminate).
  simpl. destruct (series_meta !! sid) as [meta|]; simpl.
  2: { split; [by intros [e ?] | by intros [[? ?] _]]. }
  destruct (assoc "data" fields) as [[| | | | |points|]|]; simpl in *; try discriminate.
  2: { split; [by intros [e ?] | by intros [_ (? & ? & _)]]. }
  destruct points as [|point points]; simpl in *.
  { split; [by intros [e ?] | by intros [_ (? & ? & _)]]. }
  apply andb_true_iff in Hdata as [Hpoint _]. unfold point_shaped in Hpoint.
  destruct point as [| | | | | |pf]; try discriminate. simpl.
  destruct (py_int (default (JInt SY) (assoc "year" pf))) as [year|e] eqn:Hyear; simpl.
  - split.
    + destruct (default (JStr "") (assoc "value" pf)) as [| | | |v| |] eqn:Hv;
        try (destruct (assoc "value" pf) as [[]|]; simpl in *; discriminate).
      destruct (safe_wage_total v) as [[w|] ->]; simpl; by intros [e ?].
    + intros [_ (p & [= <-] & [e He])]. simpl in He. by rewrite Hyear in He.
  - split; [|intros _; by exists e].
    intros _. split; [done|]. eexists. split; [done|]. simpl. rewrite Hyear. by exists e.
Qed.

Lemma for_each_parse_series_raises (SY : Z) (series_meta : gmap string descriptor)
    (items : list json) (partial : gmap key (gmap string cell)) :
  forallb series_shaped items = true →
  raises (for_each (parse_series SY series_meta) items partial) ↔
  ∃ series, series ∈ items ∧ bad_year SY series_meta series.
Proof.
  revert partial. induction items as [|series items IH]; intros partial; simpl.
  - intros _. split; [by intros [e ?] | by intros (? & ?%elem_of_nil & _)].
  - intros [Hshape Hrest]%andb_true_iff.
    pose proof (parse_series_raises SY series_meta partial series Hshape) as Hstep.
    destruct (parse_series SY series_meta partial series) as [p1|e] eqn:Hp; simpl.
    + rewrite (IH p1 Hrest). split.
      * intros (s & ? & ?). exists s. split; [by right|done].
      * intros (s & [->|?]%elem_of_cons & Hbad); [|by exists s].
        apply Hstep in Hbad as [e ?]. discriminate.
    + split; [|intros _; by exists e].
      intros _. exists series. split; [left|]. apply Hstep. by exists e.
Qed.

Lemma parse_response_raises (SY : Z) (response_data : json)
    (series_meta : gmap string descriptor) :
  response_shaped response_data = true →
  raises (parse_response SY response_data series_meta) ↔
  ∃ series, series ∈ response_series response_data ∧ bad_year SY series_meta series.
Proof.
  unfold response_shaped, parse_response, response_series.
  destruct response_data as [| | | | | |fields]; try discriminate. simpl.
  assert (Hnone : ∀ A (a : A) (P : json → Prop),
            raises (Ok a) ↔ ∃ series, series ∈ @nil json ∧ P series).
  { intros A a P. split; [by intros [e ?] | by intros (? & ?%elem_of_nil & _)]. }
  destruct (assoc "Results" fields) as [[| | | | | |results]|]; simpl;
    try discriminate; [|intros _; apply Hnone].
  destruct (assoc "series" results) as [[| | | | |items|]|]; simpl;
    try (intros _; apply Hnone).
  apply for_each_parse_series_raises.
Qed.

(** When every year field present converts, no series of the expected shape
    has a bad year. *)
Lemma year_fields_parse_no_bad_year (SY : Z) (series_meta : gmap string descriptor)
    (series : json) :
  series_shaped series = true →
  forallb year_field_parses (series_points series) = true →
  ¬ bad_year SY series_meta series.
Proof.
  unfold series_shaped, bad_year, series_points, first_point, point_year.
  destruct series as [| | | | | |fields]; try discriminate.
  intros [_ Hdata]%andb_true_iff. simpl.
  destruct (assoc "data" fields) as [[| | | | |points|]|]; simpl in *;
    try discriminate; [|by intros _ [_ (? & ? & _)]].
  destruct points as [|point points]; simpl in *; [by intros _ [_ (? & ? & _)]|].
  apply andb_true_iff in Hdata as [Hpoint _]. unfold point_shaped in Hpoint.
  destruct point as [| | | | | |pf]; try discriminate. simpl.
  intros [Hyear _]%andb_true_iff [_ (p & [= <-] & [e He])]. simpl in He.
  destruct (assoc "year" pf) as [y|]; simpl in He; [|discriminate].
  by rewrite He in Hyear.
Qed.

(** An exception in the loop ends it: the batches that follow are not
    processed and the exception is what the loop hands back. *)
Lemma run_batches_stops (cfg : config) (net : network)
    (series_meta : gmap string descriptor)
    (numbered : list (nat * list descriptor)) (st : loop_state)
    (nb : nat * list descriptor) :
  nb ∈ numbered →
  (∀ st', raises (process_batch cfg net series_meta st' nb)) →
  is_Some (run_batches cfg net series_meta numbered st).2.
Proof.
  intros Hin Hraise. revert st.
  induction numbered as [|b rest IH]; intros st; [by apply elem_of_nil in Hin|].
  simpl. destruct (process_batch cfg net series_meta st b) as [st1|e] eqn:Hstep;
    [|by eexists].
  apply elem_of_cons in Hin as [->|Hin]; [|by apply IH].
  destruct (Hraise st) as [e He]. congruence.
Qed.

Lemma process_batch_parse_raises (cfg : config) (net : network)
    (series_meta : gmap string descriptor) (st : loop_state)
    (nb : nat * list descriptor) (response : json) :
  fetch_bls_batch (net nb.1 (series_id <$> nb.2)) = Ok (Some response) →
  raises (parse_response (SURVEY_YEAR cfg) response series_meta) →
  raises (process_batch cfg net series_meta st nb).
Proof.
  destruct nb as [n batch]. simpl. intros Hfetch [e He].
  exists e. unfold process_batch. by rewrite Hfetch; simpl; rewrite He.
Qed.

(** An exception of the batch loop is caught at the top: the run is FAILED
    and the process exits with code 1. *)
Lemma main_failed_by_batch (cfg : config) (net : network) (faults : db_faults)
    (conn : connection) (soc_map : list (string * string)) :
  is_Some (run_batches cfg net (series_meta_of (build_all_series soc_map))
             (enumerate1 (batches_of (BATCH_SIZE cfg) (build_all_series soc_map)))
             initial_state).2 →
  final_status (main cfg net faults conn soc_map) = "FAILED"
  ∧ exit_code (main cfg net faults conn soc_map) = 1.
Proof.
  intros [e He]. unfold main, main_try.
  destruct soc_map as [|entry soc_map]; [done|].
  destruct (run_batches _ _ _ _ _) as [st [e'|]]; [done|discriminate].
Qed.

(** C10, as amended: on a response of the expected shape, [parse_response]
    raises exactly when some recognised series with data has, in the data
    point that is read, a year that does not convert to an integer — series
    that are not recognised, have no identifier, have no data or have a value
    that is no number are passed over without an exception.  So it returns
    when every year field present converts; and when it raises on the response
    of a batch, the run ends FAILED with exit code 1. *)
Theorem parse_response_raises_iff_bad_year (SY : Z) (response_data : json)
    (series_meta : gmap string descriptor) :
  response_shaped response_data = true →
  (raises (parse_response SY response_data series_meta) ↔
   ∃ series, series ∈ response_series response_data ∧ bad_year SY series_meta series)
  ∧ (year_fields_parse response_data = true →
     returns (parse_response SY response_data series_meta))
  ∧ (raises (parse_response SY response_data series_meta) →
     ∀ cfg net faults conn soc_map nb,
       SURVEY_YEAR cfg = SY →
       series_meta_of (build_all_series soc_map) = series_meta →
       nb ∈ enumerate1 (batches_of (BATCH_SIZE cfg) (build_all_series soc_map)) →
       fetch_bls_batch (net nb.1 (series_id <$> nb.2)) = Ok (Some response_data) →
       final_status (main cfg net faults conn soc_map) = "FAILED"
       ∧ exit_code (main cfg net faults conn soc_map) = 1).
Proof.
  intros Hshape.
  pose proof (parse_response_raises SY response_data series_meta Hshape) as Hiff.
  split_and!; [done| |].
  - intros Hyears.
    destruct (returns_or_raises (parse_response SY response_data series_meta))
      as [?|Hraise]; [done|].
    apply Hiff in Hraise as (series & Hin & Hbad). exfalso.
    unfold year_fields_parse in Hyears. rewrite forallb_forall in Hyears.
    apply list_elem_of_In in Hin as Hin'. specialize (Hyears _ Hin').
    revert Hbad. apply year_fields_parse_no_bad_year; [|done].
    revert Hshape Hin. unfold response_shaped, response_series.
    destruct response_data as [| | | | | |fields]; try discriminate. simpl.
    destruct (assoc "Results" fields) as [[| | | | | |results]|]; simpl;
      try discriminate; try (by intros _ ?%elem_of_nil).
    destruct (assoc "series" results) as [[| | | | |items|]|]; simpl;
      try (by intros _ ?%elem_of_nil).
    rewrite forallb_forall. intros Hall Hin. by apply Hall, list_elem_of_In.
  - intros Hraise cfg net faults conn soc_map nb <- <- Hnb Hfetch.
    apply main_failed_by_batch. eapply run_batches_stops; [done|].
    intros st. by eapply process_batch_parse_raises.
Qed.

(** A value that is no number is passed over: the response is parsed. *)
Lemma parse_response_raises_iff_bad_year_witness :
  let series_meta := series_meta_of (build_all_series one_occupation) in
  let response := response_with "2024" "12x" ["OEUM001974000000015125203"] in
  response_shaped response = true
  ∧ year_fields_parse response = true
  ∧ returns (parse_response 2024 response series_meta).
Proof.
  intros series_meta response.
  destruct (parse_response_raises_iff_bad_year 2024 response series_meta eq_refl)
    as (_ & Hreturns & _).
  split_and!; [reflexivity | reflexivity | apply Hreturns; reflexivity].
Defined.

(** C10 as stated fails: every year field of this response converts, yet
    [parse_response] raises, because the value of the data point is a JSON
    number and [safe_wage] calls [strip] on it. *)
Lemma parse_response_raises_on_numeric_value :
  let series_meta := series_meta_of (build_all_series one_occupation) in
  let response :=
    JObj [("status", JStr "REQUEST_SUCCEEDED");
          ("Results", JObj [("series", JArr [
             JObj [("seriesID", JStr "OEUM001974000000015125203");
                   ("data", JArr [JObj [("year", JStr "2024");
                                        ("value", JInt 125000)]])]])])] in
  year_fields_parse response = true
  ∧ parse_response 2024 response series_meta = Raise AttributeError.
Proof. split; vm_compute; reflexivity. Qed.

(** ** The loader *)

Arguments build_record : simpl never.
Arguments bls_upsert : simpl never.
Arguments upsert_row : simpl never.
Arguments unique_key : simpl never.
Arguments conflicts : simpl never.

Lemma conflicts_refl (row : gmap string cell) : conflicts row row = true.
Proof. unfold conflicts. by apply bool_decide_eq_true. Qed.

Lemma connection_eta (conn : connection) :
  {| committed := committed conn;
     pending := {| bls_wage_data := bls_wage_data (pending conn);
                   pipeline_run_log := pipeline_run_log (pending conn) |} |} = conn.
Proof. by destruct conn as [c [t l]]. Qed.

(** One upsert either meets a conflict and leaves the table as it is, with
    rowcount 0, or appends the proposed row, with rowcount 1. *)
Lemma bls_upsert_ok (table table' : list (gmap string cell))
    (record : gmap string cell) (rowcount : nat) :
  bls_upsert table record = Ok (table', rowcount) →
  (CNone ∉ unique_key (upsert_row record))
  ∧ ((existsb (conflicts (upsert_row record)) table = true
      ∧ table' = table ∧ rowcount = 0)
     ∨ (existsb (conflicts (upsert_row record)) table = false
        ∧ table' = table ++ [upsert_row record] ∧ rowcount = 1)).
Proof.
  unfold bls_upsert. cbv zeta. case_bool_decide as Hnull; [discriminate|].
  destruct (existsb _ table) eqn:Hconf; intros [= <- <-]; split; auto.
Qed.

(** The loop of the loader never touches what is committed. *)
Lemma upsert_rows_committed (faults : db_faults) (rows : list (gmap string cell))
    (i : nat) (conn : connection) (written : nat) :
  committed (upsert_rows faults i rows conn written).1.1 = committed conn.
Proof.
  revert i conn written. induction rows as [|row_data rows IH]; intros i conn written;
    cbn [upsert_rows]; [done|].
  destruct (build_record row_data) as [record|]; [|done].
  destruct (upsert_fault faults i); [done|].
  destruct (bls_upsert _ record) as [[table rowcount]|]; [|done].
  by rewrite IH.
Qed.

(** A loop that ends without exception: nothing failed, the table grew by
    the rows counted, every aggregated row is now stored, and the keys of the
    table stay pairwise distinct. *)
Lemma upsert_rows_ok (faults : db_faults) (rows : list (gmap string cell))
    (i : nat) (conn conn' : connection) (written written' : nat) :
  upsert_rows faults i rows conn written = (conn', written', None) →
  (∀ j, j < length rows → upsert_fault faults (i + j) = None)
  ∧ pipeline_run_log (pending conn') = pipeline_run_log (pending conn)
  ∧ (∃ new, bls_wage_data (pending conn') = bls_wage_data (pending conn) ++ new
       ∧ written' = written + length new)
  ∧ Forall (already_stored (bls_wage_data (pending conn'))) rows
  ∧ (NoDup (unique_key <$> bls_wage_data (pending conn)) →
     NoDup (unique_key <$> bls_wage_data (pending conn'))).
Proof.
  revert i conn written. induction rows as [|row_data rows IH]; intros i conn written;
    cbn [upsert_rows].
  - intros [= <- <-]. split_and!; [simpl; lia|done| |done|done].
    exists []. by rewrite app_nil_r, Nat.add_0_r.
  - destruct (build_record row_data) as [record|] eqn:Hrec; [|discriminate].
    destruct (upsert_fault faults i) eqn:Hfault; [discriminate|].
    destruct (bls_upsert _ record) as [[table rowcount]|] eqn:Hup; [|discriminate].
    intros Hrest.
    apply IH in Hrest as (Hfaults & Hlog & (new & Hnew & Hcount) & Hstored & Hnodup).
    apply bls_upsert_ok in Hup as [Hnull Hcases]. simpl in *.
    split_and!.
    + intros [|j] ?; [by rewrite Nat.add_0_r|].
      replace (i + S j) with (S i + j) by lia. apply Hfaults. lia.
    + done.
    + destruct Hcases as [(_ & -> & ->)|(_ & -> & ->)].
      * exists new. split; [done|]. simpl in Hcount. done.
      * exists (upsert_row record :: new).
        rewrite Hnew, <- app_assoc. split; [done|]. simpl in *. lia.
    + constructor; [|done]. exists record. split_and!; [done|done|].
      rewrite Hnew, existsb_app.
      destruct Hcases as [(Hconf & -> & _)|(_ & -> & _)]; [by rewrite Hconf|].
      rewrite existsb_app. cbn [existsb]. by rewrite conflicts_refl, orb_true_r.
    + intros Hnd. apply Hnodup.
      destruct Hcases as [(_ & -> & _)|(Hfresh & -> & _)]; [done|].
      rewrite fmap_app. apply NoDup_app. split_and!; [done| |apply NoDup_singleton].
      intros key' (r & Hkey & Hr)%list_elem_of_fmap Heq%list_elem_of_singleton.
      assert (Hex : existsb (conflicts (upsert_row record))
                      (bls_wage_data (pending conn)) = true); [|congruence].
      apply existsb_exists. exists r. split; [by apply list_elem_of_In|].
      unfold conflicts. apply bool_decide_eq_true. congruence.
Qed.

(** Loading rows that are all stored already changes nothing and counts
    nothing. *)
Lemma upsert_rows_again (faults : db_faults) (rows : list (gmap string cell))
    (i : nat) (conn : connection) (written : nat) :
  (∀ j, j < length rows → upsert_fault faults (i + j) = None) →
  Forall (already_stored (bls_wage_data (pending conn))) rows →
  upsert_rows faults i rows conn written = (conn, written, None).
Proof.
  revert i. induction rows as [|row_data rows IH]; intros i Hfaults Hstored;
    cbn [upsert_rows]; [done|].
  apply Forall_cons in Hstored as [(record & Hrec & Hnull & Hconf) Hstored].
  rewrite Hrec. rewrite <- (Nat.add_0_r i) at 1. rewrite Hfaults by (simpl; lia).
  unfold bls_upsert. cbv zeta. rewrite bool_decide_eq_false_2 by done. rewrite Hconf.
  simpl. rewrite connection_eta. apply IH; [|done].
  intros j ?. replace (S i + j) with (i + S j) by lia. apply Hfaults. simpl. lia.
Qed.

(** C7: a load into storage with no transaction open inserts each aggregated
    row unless a stored row has its (occupation code, geography code,
    reference year), counts the rows it inserted, keeps the stored rows as
    they were and their keys pairwise distinct, and leaves every aggregated
    row stored; a second load of the same aggregation writes no row, returns
    0 and leaves the storage as it is. *)
Theorem load_wage_rows_idempotent (faults : db_faults) (conn conn1 : connection)
    (aggregated : gmap key (gmap string cell)) (n : nat) :
  pending conn = committed conn →
  load_wage_rows faults conn aggregated = (conn1, Ok n) →
  (∃ new, bls_wage_data (committed conn1) = bls_wage_data (committed conn) ++ new
     ∧ n = length new)
  ∧ (∀ k row_data, aggregated !! k = Some row_data →
       already_stored (bls_wage_data (committed conn1)) row_data)
  ∧ (NoDup (unique_key <$> bls_wage_data (committed conn)) →
     NoDup (unique_key <$> bls_wage_data (committed conn1)))
  ∧ load_wage_rows faults conn1 aggregated = (conn1, Ok 0).
Proof.
  intros Hclean. unfold load_wage_rows.
  destruct (upsert_rows faults 0 _ conn 0) as [[conn' written] [e|]] eqn:Hloop;
    [discriminate|].
  destruct (commit_fault faults) eqn:Hcommit; [discriminate|].
  intros [= <- <-].
  apply upsert_rows_ok in Hloop as (Hfaults & _ & (new & Hnew & Hcount) & Hstored & Hnd).
  rewrite Hclean in Hnew, Hnd. simpl. split_and!.
  - exists new. by split.
  - intros k row_data Hk. rewrite Forall_forall in Hstored. apply Hstored.
    apply list_elem_of_fmap. exists (k, row_data). split; [done|].
    by apply elem_of_map_to_list.
  - done.
  - by rewrite (upsert_rows_again faults _ 0 (commit conn') 0).
Qed.

Lemma load_wage_rows_idempotent_witness :
  let first := load_wage_rows no_faults empty_connection one_record in
  first.2 = Ok 1
  ∧ length (bls_wage_data (committed first.1)) = 1
  ∧ load_wage_rows no_faults first.1 one_record = (first.1, Ok 0).
Proof.
  intros first.
  assert (Hfirst : first.2 = Ok 1) by (vm_compute; reflexivity).
  destruct (load_wage_rows_idempotent no_faults empty_connection first.1 one_record 1
              eq_refl) as ((new & Hnew & Hlen) & _ & _ & Hagain).
  { rewrite <- Hfirst. apply surjective_pairing. }
  split_and!; [done| |done]. rewrite Hnew. simpl. lia.
Defined.

(** ** Failure of the load *)

Lemma row_keyed_loadable (k : key) (row : gmap string cell) :
  row_keyed k row → loadable row.
Proof.
  intros (record & Hrec & Hsoc & Hmsa & Hyear)%build_record_keyed.
  exists record. split; [done|].
  destruct (upsert_row_key record) as (Hc1 & Hc2 & Hc3).
  unfold unique_key, UNIQUE_COLUMNS. cbn [fmap list_fmap].
  rewrite Hc1, Hc2, Hc3, Hsoc, Hmsa, Hyear.
  rewrite !elem_of_cons, elem_of_nil. by intros [?|[?|[?|?]]].
Qed.

Lemma bls_upsert_returns (table : list (gmap string cell)) (record : gmap string cell) :
  CNone ∉ unique_key (upsert_row record) →
  ∃ table' rowcount, bls_upsert table record = Ok (table', rowcount).
Proof.
  intros Hnull. unfold bls_upsert. cbv zeta.
  rewrite bool_decide_eq_false_2 by done. destruct (existsb _ _); by eexists _, _.
Qed.

(** On loadable rows the loop stops at the first insert the database fails,
    with the error of that insert. *)
Lemma upsert_rows_first_fault (faults : db_faults) (rows : list (gmap string cell))
    (i j : nat) (conn : connection) (written : nat) (msg : string) :
  Forall loadable rows → j < length rows →
  upsert_fault faults (i + j) = Some msg →
  (∀ j', j' < j → upsert_fault faults (i + j') = None) →
  (upsert_rows faults i rows conn written).2 = Some (DatabaseError msg).
Proof.
  revert i j conn written.
  induction rows as [|row_data rows IH]; intros i j conn written Hrows Hj Hfault Hbefore;
    [simpl in Hj; lia|].
  apply Forall_cons in Hrows as [(record & Hrec & Hnull) Hrows].
  cbn [upsert_rows]. rewrite Hrec. destruct j as [|j].
  - rewrite Nat.add_0_r in Hfault. by rewrite Hfault.
  - rewrite <- (Nat.add_0_r i) at 1. rewrite Hbefore by lia.
    destruct (bls_upsert_returns (bls_wage_data (pending conn)) record Hnull)
      as (table & rowcount & ->).
    apply (IH (S i) j); [done|simpl in Hj; lia| |].
    + by replace (S i + j) with (i + S j) by lia.
    + intros j' ?. replace (S i + j') with (i + S j') by lia. apply Hbefore. lia.
Qed.

(** Whatever exception ends a load, the connection is rolled back: nothing
    of the load is committed and nothing of it stays pending. *)
Lemma load_wage_rows_raise (faults : db_faults) (conn conn' : connection)
    (aggregated : gmap key (gmap string cell)) (e : exn) :
  load_wage_rows faults conn aggregated = (conn', Raise e) →
  committed conn' = committed conn ∧ pending conn' = committed conn.
Proof.
  unfold load_wage_rows.
  pose proof (upsert_rows_committed faults (map_to_list aggregated).*2 0 conn 0) as Hc.
  destruct (upsert_rows faults 0 _ conn 0) as [[conn1 written] [e'|]]; simpl in Hc.
  - intros [= <- _]. by rewrite <- Hc.
  - destruct (commit_fault faults); [|discriminate]. intros [= <- _]. by rewrite <- Hc.
Qed.

Lemma process_batch_rows (cfg : config) (net : network)
    (series_meta : gmap string descriptor) (st st' : loop_state)
    (nb : nat * list descriptor) :
  wage_columns_only series_meta →
  map_Forall row_keyed (master st) →
  process_batch cfg net series_meta st nb = Ok st' →
  map_Forall row_keyed (master st').
Proof.
  intros Hcols Hinv. destruct nb as [n batch]. unfold process_batch.
  intros ([response|] & _ & H)%rbind_ok; [|by injection H as <-].
  apply rbind_ok in H as (partial & Hparse & (returned & _ & [= <-])%rbind_ok).
  simpl. apply map_Forall_union_2; [|done]. by eapply parse_response_rows.
Qed.

Lemma run_batches_rows (cfg : config) (net : network)
    (series_meta : gmap string descriptor)
    (numbered : list (nat * list descriptor)) (st : loop_state) :
  wage_columns_only series_meta →
  map_Forall row_keyed (master st) →
  map_Forall row_keyed (master (run_batches cfg net series_meta numbered st).1).
Proof.
  intros Hcols. revert st. induction numbered as [|nb rest IH]; intros st Hinv;
    cbn [run_batches]; [done|].
  destruct (process_batch cfg net series_meta st nb) as [st1|e] eqn:Hstep; [|done].
  apply IH. by eapply process_batch_rows.
Qed.

(** The rows the pipeline aggregates are loadable. *)
Lemma master_loadable (cfg : config) (net : network)
    (soc_map : list (string * string)) (numbered : list (nat * list descriptor)) :
  Forall loadable
    (map_to_list (master (run_batches cfg net
                            (series_meta_of (build_all_series soc_map))
                            numbered initial_state).1)).*2.
Proof.
  pose proof (run_batches_rows cfg net _ numbered initial_state
                (wage_columns_only_build soc_map) (map_Forall_empty _)) as Hrows.
  apply map_Forall_to_list in Hrows. rewrite Forall_fmap.
  eapply Forall_impl; [exact Hrows|]. intros [k row] Hk. by eapply row_keyed_loadable.
Qed.

Lemma BATCH_SIZE_pos (cfg : config) : 0 < BATCH_SIZE cfg.
Proof. unfold BATCH_SIZE. destruct (String.eqb _ _); lia. Qed.

Lemma batches_of_nil {A} (size : nat) : 0 < size → batches_of size (@nil A) = [].
Proof.
  intros Hsize. unfold batches_of. cbn [length].
  replace ((0 + size - 1) `div` size) with 0; [done|].
  symmetry. apply Nat.div_small. lia.
Qed.

(** The [try] block once the batch loop has ended without exception. *)
Lemma main_try_after_batches (cfg : config) (net : network) (faults : db_faults)
    (conn : connection) (soc_map : list (string * string)) (st : loop_state) :
  soc_map ≠ [] →
  run_batches cfg net (series_meta_of (build_all_series soc_map))
    (enumerate1 (batches_of (BATCH_SIZE cfg) (build_all_series soc_map)))
    initial_state = (st, None) →
  main_try cfg net faults conn soc_map =
  let total := length (build_all_series soc_map) in
  let received := size (master st) in
  if (0 <? received)%nat then
    match load_wage_rows faults conn (master st) with
    | (conn', Ok written) =>
        ({| total_series := Some total; v_received := received;
            v_written := written; v_state := st; v_conn := conn' |}, None)
    | (conn', Raise e) =>
        ({| total_series := Some total; v_received := received;
            v_written := 0; v_state := st; v_conn := conn' |}, Some e)
    end
  else
    ({| total_series := Some total; v_received := received;
        v_written := 0; v_state := st; v_conn := conn |}, None).
Proof.
  intros Hne Hrun. unfold main_try. destruct soc_map as [|entry soc_map]; [done|].
  cbv zeta. by rewrite Hrun.
Qed.

(** C8: the inserts of a load run in one transaction.  When the database
    fails an insert, the load is rolled back — nothing of it is committed or
    left pending — and raises the error; [main] catches it, the run is FAILED
    with the message of the error and exit code 1, the wage table is as it was
    and, the audit insert succeeding, exactly one audit row is added, with the
    counts known then: all series requested, the records aggregated, nothing
    written. *)
Theorem load_failure_rolls_back_and_is_logged (cfg : config) (net : network)
    (faults : db_faults) (conn : connection) (soc_map : list (string * string))
    (i : nat) (msg : string) :
  let series_meta := series_meta_of (build_all_series soc_map) in
  let numbered :=
    enumerate1 (batches_of (BATCH_SIZE cfg) (build_all_series soc_map)) in
  let ran := run_batches cfg net series_meta numbered initial_state in
  let run := main cfg net faults conn soc_map in
  ran.2 = None →
  i < size (master ran.1) →
  upsert_fault faults i = Some msg →
  (∀ j, j < i → upsert_fault faults j = None) →
  audit_fault faults = None →
  (∃ conn',
      load_wage_rows faults conn (master ran.1) = (conn', Raise (DatabaseError msg))
      ∧ committed conn' = committed conn
      ∧ pending conn' = committed conn)
  ∧ final_status run = "FAILED"
  ∧ final_error run = Some msg
  ∧ exit_code run = 1
  ∧ bls_wage_data (committed (final_conn run)) = bls_wage_data (committed conn)
  ∧ pipeline_run_log (committed (final_conn run))
    = pipeline_run_log (committed conn)
      ++ [ {| pipeline_type := "BLS_OEWS"; status := "FAILED";
              records_requested := 30 * length soc_map;
              records_received := size (master ran.1);
              records_written := 0;
              discrepancy_flag := true;
              error_message := Some msg |} ].
Proof.
  intros series_meta numbered ran run Hend Hi Hfault Hbefore Haudit.
  assert (Hload : ∃ conn',
    load_wage_rows faults conn (master ran.1) = (conn', Raise (DatabaseError msg))).
  { unfold load_wage_rows.
    pose proof (upsert_rows_first_fault faults
                  (map_to_list (master ran.1)).*2 0 i conn 0 msg
                  (master_loadable cfg net soc_map numbered)) as Hstop.
    rewrite length_fmap, length_map_to_list in Hstop.
    specialize (Hstop Hi Hfault Hbefore).
    destruct (upsert_rows faults 0 _ conn 0) as [[conn1 written] exc].
    simpl in Hstop. subst exc. by eexists. }
  destruct Hload as [conn' Hload].
  destruct (load_wage_rows_raise _ _ _ _ _ Hload) as [Hcommitted Hpending].
  split; [by exists conn'|].
  assert (Hne : soc_map ≠ []).
  { intros ->. subst ran numbered. revert Hi.
    change (build_all_series []) with (@nil descriptor).
    rewrite batches_of_nil by apply BATCH_SIZE_pos. simpl.
    rewrite map_size_empty. lia. }
  assert (Hrun : ran = (ran.1, None)).
  { rewrite <- Hend. apply surjective_pairing. }
  subst run. unfold main.
  rewrite (main_try_after_batches cfg net faults conn soc_map ran.1 Hne Hrun).
  cbv zeta. replace (0 <? size (master ran.1))%nat with true
    by (symmetry; apply Nat.ltb_lt; lia).
  rewrite Hload. unfold log_pipeline_run. rewrite Haudit.
  cbn [final_status final_error exit_code final_conn v_conn v_received v_written
       total_series default fmap option_fmap option_map exn_message committed pending
       commit bls_wage_data pipeline_run_log].
  rewrite Hpending, length_build_all_series.
  replace (size (master ran.1) =? 0)%nat with false
    by (symmetry; apply Nat.eqb_neq; lia).
  split_and!; done.
Qed.

Lemma load_failure_rolls_back_and_is_logged_witness :
  let run :=
    main public_tier echo_network third_insert_fails empty_connection one_occupation in
  final_status run = "FAILED"
  ∧ final_error run = Some "connection lost"
  ∧ exit_code run = 1
  ∧ bls_wage_data (committed (final_conn run)) = []
  ∧ length (pipeline_run_log (committed (final_conn run))) = 1.
Proof.
  intros run.
  destruct (load_failure_rolls_back_and_is_logged public_tier echo_network
              third_insert_fails empty_connection one_occupation 2 "connection lost")
    as (_ & Hstatus & Herror & Hexit & Htable & Hlog).
  - vm_compute. reflexivity.
  - apply Nat.ltb_lt. vm_compute. reflexivity.
  - reflexivity.
  - intros [|[|j]] ?; [reflexivity|reflexivity|lia].
  - reflexivity.
  - split_and!; [done|done|done|done|]. subst run. by rewrite Hlog.
Defined.

(** ** Failure of a batch *)








(** No batch is empty. *)
Lemma batches_of_nonempty {A} (size : nat) (l batch : list A) :
  0 < size → batch ∈ batches_of size l → batch ≠ [].
Proof.
  intros Hsize (k & -> & Hk)%list_elem_of_fmap.
  apply elem_of_seq in Hk as [_ Hk]. simpl in Hk.
  pose proof (Nat.Div0.mul_div_le (length l + size - 1) size) as Hdiv.
  assert (Hlt : k * size < length l) by nia.
  intros Hnil%(f_equal length). rewrite length_take, length_drop in Hnil.
  simpl in Hnil. lia.
Qed.






(** * Further properties *)

(** ** Batching *)

Lemma concat_chunks {A} (size : nat) (k : nat) (l : list A) :
  length l ≤ k * size →
  concat ((λ n, take size (drop (n * size) l)) <$> seq 0 k) = l.
Proof.
  revert l. induction k as [|k IH]; intros l Hlen.
  - destruct l; [done|simpl in Hlen; lia].
  - cbn [seq fmap list_fmap concat]. rewrite <- fmap_S_seq, <- list_fmap_compose.
    transitivity (take size l ++ drop size l); [|apply take_drop].
    f_equal. etrans; [|apply (IH (drop size l)); rewrite length_drop; lia].
    f_equal. apply list_fmap_ext. intros _ n _. simpl.
    by rewrite drop_drop.
Qed.

Lemma chunks_cover (len size : nat) :
  0 < size → len ≤ (len + size - 1) `div` size * size.
Proof.
  intros Hsize.
  pose proof (Nat.div_mod_eq (len + size - 1) size) as Heq.
  pose proof (Nat.mod_upper_bound (len + size - 1) size) as Hmod. nia.
Qed.

Lemma concat_batches_of {A} (size : nat) (l : list A) :
  0 < size → concat (batches_of size l) = l.
Proof. intros Hsize. apply concat_chunks. by apply chunks_cover. Qed.

(** X1: the batches of [main] are a partition of the series in order —
    concatenated they give back the list, none is empty and none holds more
    than [BATCH_SIZE] series. *)
Theorem batches_partition_series (cfg : config) (all_series : list descriptor) :
  concat (batches_of (BATCH_SIZE cfg) all_series) = all_series
  ∧ Forall (λ batch, batch ≠ [] ∧ length batch ≤ BATCH_SIZE cfg)
      (batches_of (BATCH_SIZE cfg) all_series).
Proof.
  pose proof (BATCH_SIZE_pos cfg) as Hsize.
  split; [by apply concat_batches_of|].
  apply Forall_forall. intros batch Hin.
  split; [by eapply batches_of_nonempty|].
  apply list_elem_of_fmap in Hin as (n & -> & _). rewrite length_take. lia.
Qed.

(** ** Gap accounting *)

Lemma enumerate1_bind {A B} (f : A → list B) (l : list A) :
  enumerate1 l ≫= (λ nb, f nb.2) = l ≫= f.
Proof.
  unfold enumerate1. generalize 1.
  induction l as [|x l IH]; intros start; [done|].
  cbn [length seq zip zip_with]. rewrite !bind_cons. simpl. by rewrite IH.
Qed.

Lemma bind_fmap_concat {A B} (f : A → B) (l : list (list A)) :
  l ≫= (λ b, f <$> b) = f <$> concat l.
Proof.
  induction l as [|b l IH]; [done|].
  rewrite bind_cons, IH. simpl. by rewrite fmap_app.
Qed.

(** The identifiers of all batches, in order, are those of all series. *)
Lemma batch_ids_all (cfg : config) (all_series : list descriptor) :
  enumerate1 (batches_of (BATCH_SIZE cfg) all_series) ≫= (λ nb, series_id <$> nb.2)
  = series_id <$> all_series.
Proof.
  rewrite (enumerate1_bind (λ b, series_id <$> b)), bind_fmap_concat.
  by rewrite concat_batches_of by apply BATCH_SIZE_pos.
Qed.

(** An iteration appends to the gaps some of the identifiers of its batch,
    in their order. *)
Lemma process_batch_gaps (cfg : config) (net : network)
    (series_meta : gmap string descriptor) (st st' : loop_state)
    (nb : nat * list descriptor) :
  process_batch cfg net series_meta st nb = Ok st' →
  ∃ gaps, series_gaps st' = series_gaps st ++ gaps
          ∧ gaps `sublist_of` (series_id <$> nb.2).
Proof.
  destruct nb as [n batch]. unfold process_batch.
  intros ([response|] & _ & H)%rbind_ok.
  - apply rbind_ok in H as (partial & _ & (returned & _ & [= <-])%rbind_ok).
    eexists. split; [done|]. apply sublist_filter.
  - injection H as <-. by eexists.
Qed.

Lemma run_batches_gaps (cfg : config) (net : network)
    (series_meta : gmap string descriptor)
    (numbered : list (nat * list descriptor)) (st : loop_state) :
  ∃ gaps,
    series_gaps (run_batches cfg net series_meta numbered st).1
    = series_gaps st ++ gaps
    ∧ gaps `sublist_of` (numbered ≫= λ nb, series_id <$> nb.2).
Proof.
  revert st. induction numbered as [|nb rest IH]; intros st; cbn [run_batches].
  - exists []. by rewrite app_nil_r.
  - rewrite bind_cons.
    destruct (process_batch cfg net series_meta st nb) as [st1|e] eqn:Hstep.
    + apply process_batch_gaps in Hstep as (g1 & Hg1 & Hsub1).
      destruct (IH st1) as (g2 & Hg2 & Hsub2).
      exists (g1 ++ g2). rewrite Hg2, Hg1, app_assoc. split; [done|].
      by apply sublist_app.
    + exists []. rewrite app_nil_r. split; [done|]. apply sublist_nil_l.
Qed.

(** The state [main] ends with: that of the batch loop, or the initial one
    when the catalog is empty. *)
Lemma main_state (cfg : config) (net : network) (faults : db_faults)
    (conn : connection) (soc_map : list (string * string)) :
  v_state (final_vars (main cfg net faults conn soc_map))
  = match soc_map with
    | [] => initial_state
    | _ :: _ =>
        (run_batches cfg net (series_meta_of (build_all_series soc_map))
           (enumerate1 (batches_of (BATCH_SIZE cfg) (build_all_series soc_map)))
           initial_state).1
    end.
Proof.
  unfold main.
  assert (Hvars : v_state (main_try cfg net faults conn soc_map).1
          = match soc_map with
            | [] => initial_state
            | _ :: _ =>
                (run_batches cfg net (series_meta_of (build_all_series soc_map))
                   (enumerate1 (batches_of (BATCH_SIZE cfg) (build_all_series soc_map)))
                   initial_state).1
            end).
  { unfold main_try. destruct soc_map as [|entry soc_map]; [done|]. cbv zeta.
    destruct (run_batches _ _ _ _ _) as [st [e|]]; [done|].
    destruct (0 <? size (master st))%nat; [|done].
    by destruct (load_wage_rows faults conn (master st)) as [conn' [written|e]]. }
  destruct (main_try cfg net faults conn soc_map) as [vars exc]. exact Hvars.
Qed.

(** X2: whatever the network answers and however the run ends, the gap list
    is made of requested identifiers, each taken at most as often as it was
    requested and in the order of the requests; so it is never longer than
    the 30 series per occupation that were requested. *)
Theorem gaps_among_requested (cfg : config) (net : network) (faults : db_faults)
    (conn : connection) (soc_map : list (string * string)) :
  let gaps := series_gaps (v_state (final_vars (main cfg net faults conn soc_map))) in
  gaps `sublist_of` (series_id <$> build_all_series soc_map)
  ∧ length gaps ≤ 30 * length soc_map.
Proof.
  intros gaps.
  assert (Hsub : gaps `sublist_of` (series_id <$> build_all_series soc_map)).
  { subst gaps. rewrite main_state. destruct soc_map as [|entry soc_map].
    - apply sublist_nil_l.
    - destruct (run_batches_gaps cfg net
                  (series_meta_of (build_all_series (entry :: soc_map)))
                  (enumerate1 (batches_of (BATCH_SIZE cfg)
                                 (build_all_series (entry :: soc_map))))
                  initial_state) as (g & -> & Hsub).
      by rewrite batch_ids_all in Hsub. }
  split; [done|].
  apply sublist_length in Hsub.
  by rewrite length_fmap, length_build_all_series in Hsub.
Qed.

(** The identifiers [returned_ids] collects are those of the listed series
    that have data. *)
Lemma returned_ids_spec (response : json) (returned : gset string) (sid : string) :
  returned_ids response = Ok returned →
  sid ∈ returned ↔ echoed_with_data response sid.
Proof.
  unfold returned_ids, echoed_with_data, response_series.
  intros (results & -> & (series_list & -> & (items & Hiter & Hloop)%rbind_ok)%rbind_ok)%rbind_ok.
  assert (Hacc : ∀ items (acc : gset string),
    for_each (λ (acc : gset string) series,
        let! sid := dict_get series "seriesID" (JStr "") in
        let! data := dict_get series "data" JNull in
        if truthy data then
          match sid with
          | JStr s => Ok ({[ s ]} ∪ acc)
          | JArr _ | JObj _ => Raise TypeError
          | JNull | JBool _ | JInt _ | JFloat _ => Ok acc
          end
        else Ok acc) items acc = Ok returned →
    sid ∈ returned ↔
    sid ∈ acc ∨ ∃ series data, series ∈ items
      ∧ dict_get series "seriesID" (JStr "") = Ok (JStr sid)
      ∧ dict_get series "data" JNull = Ok data ∧ truthy data = true).
  { clear. intros items. induction items as [|series items IH]; intros acc; simpl.
    - intros [= <-]. split; [by left|].
      by intros [?|(? & ? & ?%elem_of_nil & _)].
    - intros (acc1 & Hstep & Hrest)%rbind_ok. rewrite (IH _ Hrest). clear IH Hrest.
      apply rbind_ok in Hstep as (s & Hs & (data & Hdata & Hstep)%rbind_ok).
      assert (Hacc1 : sid ∈ acc1 ↔
                sid ∈ acc ∨ (s = JStr sid ∧ truthy data = true)).
      { destruct (truthy data).
        - destruct s; try discriminate; injection Hstep as <-;
            try (split; [by left | by intros [?|[? _]]]).
          rewrite elem_of_union, elem_of_singleton. split.
          + intros [->|?]; [by right|by left].
          + intros [?|[[= ->] _]]; [by right|by left].
        - injection Hstep as <-. split; [by left | by intros [?|[_ ?]]]. }
      rewrite Hacc1. split.
      + intros [[?|[-> ?]]|(series' & data' & ? & ?)]; [by left| |].
        * right. exists series, data. split_and!; [left|..]; done.
        * right. exists series', data'. split; [by right|done].
      + intros [?|(series' & data' & [->|?]%elem_of_cons & Hs' & Hdata' & ?)];
          [by left; left| |].
        * left; right. split; congruence.
        * right. by exists series', data'. }
  rewrite (Hacc _ _ Hloop). clear Hacc. simpl.
  assert (Hitems : items = match series_list with JArr l => l | _ => [] end).
  { destruct series_list as [| | | |s| |fields]; simpl in Hiter; try discriminate;
      injection Hiter as <-; [|done|].
    - destruct s as [|c s]; [done|]. simpl in Hloop. discriminate.
    - destruct fields as [|[k v] fields]; [done|]. simpl in Hloop. discriminate. }
  rewrite Hitems. split; [intros [?%elem_of_empty|?]; [done|] | by right].
  by destruct series_list.
Qed.

(** X3: a batch that got a response adds to the gaps exactly those of its
    identifiers that the response does not list with data, in the order of
    the batch. *)
Theorem gaps_of_answered_batch (cfg : config) (net : network)
    (series_meta : gmap string descriptor) (st st' : loop_state)
    (n : nat) (batch : list descriptor) (response : json) :
  fetch_bls_batch (net n (series_id <$> batch)) = Ok (Some response) →
  process_batch cfg net series_meta st (n, batch) = Ok st' →
  ∃ gaps,
    series_gaps st' = series_gaps st ++ gaps
    ∧ gaps `sublist_of` (series_id <$> batch)
    ∧ ∀ sid, sid ∈ gaps ↔
             sid ∈ series_id <$> batch ∧ ¬ echoed_with_data response sid.
Proof.
  intros Hfetch. unfold process_batch. rewrite Hfetch. simpl.
  intros (partial & _ & (returned & Hret & [= <-])%rbind_ok)%rbind_ok. simpl.
  eexists. split_and!; [done|apply sublist_filter|].
  intros sid. rewrite list_elem_of_filter, (returned_ids_spec _ _ sid Hret).
  split; intros [? ?]; by split.
Qed.

(** A response that lists one of the two identifiers asked for: the other
    one is the gap. *)
Lemma gaps_of_answered_batch_witness :
  let other := {| series_id := "OEUM001974000000015125211";
                  msa_name := "Denver CO"; msa_code := "19740";
                  soc_code := "15-1252"; soc_title := "Software Developers";
                  data_type := "11"; col_name := "pct_10" |} in
  let net : network :=
    λ _ _, PostBody (response_with "2024" "125000" ["OEUM001974000000015125203"]) in
  let series_meta := series_meta_of [denver_mean; other] in
  ∃ st',
    process_batch public_tier net series_meta initial_state (1, [denver_mean; other])
    = Ok st'
    ∧ series_gaps st' = ["OEUM001974000000015125211"].
Proof.
  intros other net series_meta.
  pose (step := process_batch public_tier net series_meta initial_state
                  (1, [denver_mean; other])).
  assert (Hstep : process_batch public_tier net series_meta initial_state
                    (1, [denver_mean; other]) = step) by reflexivity.
  assert (Hgaps : match step with
                  | Ok st' => bool_decide
                                (series_gaps st' = ["OEUM001974000000015125211"])
                  | Raise _ => false
                  end = true) by (vm_compute; reflexivity).
  clearbody step. destruct step as [st'|e]; [|discriminate Hgaps].
  apply bool_decide_eq_true in Hgaps.
  destruct (gaps_of_answered_batch public_tier net series_meta initial_state st'
              1 [denver_mean; other]
              (response_with "2024" "125000" ["OEUM001974000000015125203"])
              eq_refl Hstep) as (gaps & _ & _ & _).
  by exists st'.
Defined.




(** ** Rows of the aggregation, again *)

(** A row of [master] after an iteration is the row it had, or the row of
    the partial mapping parsed from the batch's response. *)
Lemma process_batch_row_origin (cfg : config) (net : network)
    (series_meta : gmap string descriptor) (st st' : loop_state)
    (nb : nat * list descriptor) (k : key) (row : gmap string cell) :
  process_batch cfg net series_meta st nb = Ok st' →
  master st' !! k = Some row →
  master st !! k = Some row
  ∨ ∃ response partial,
      fetch_bls_batch (net nb.1 (series_id <$> nb.2)) = Ok (Some response)
      ∧ parse_response (SURVEY_YEAR cfg) response series_meta = Ok partial
      ∧ partial !! k = Some row.
Proof.
  destruct nb as [n batch]. unfold process_batch.
  intros ([response|] & Hfetch & H)%rbind_ok.
  - apply rbind_ok in H as (partial & Hparse & (returned & _ & [= <-])%rbind_ok).
    simpl. intros [?|[_ ?]]%lookup_union_Some_raw; [right|by left].
    by exists response, partial.
  - injection H as <-. by left.
Qed.

(** X5: every row of the aggregation is, as it stands, the row of the
    partial mapping parsed from the response of one single batch: rows of
    different batches are never combined. *)
Theorem master_rows_from_one_response (cfg : config) (net : network)
    (series_meta : gmap string descriptor)
    (numbered : list (nat * list descriptor)) :
  map_Forall (λ k row,
      ∃ nb response partial,
        nb ∈ numbered
        ∧ fetch_bls_batch (net nb.1 (series_id <$> nb.2)) = Ok (Some response)
        ∧ parse_response (SURVEY_YEAR cfg) response series_meta = Ok partial
        ∧ partial !! k = Some row)
    (master (run_batches cfg net series_meta numbered initial_state).1).
Proof.
  intros k row.
  assert (Hgen : ∀ st,
    master (run_batches cfg net series_meta numbered st).1 !! k = Some row →
    master st !! k = Some row
    ∨ ∃ nb response partial,
        nb ∈ numbered
        ∧ fetch_bls_batch (net nb.1 (series_id <$> nb.2)) = Ok (Some response)
        ∧ parse_response (SURVEY_YEAR cfg) response series_meta = Ok partial
        ∧ partial !! k = Some row).
  { induction numbered as [|nb rest IH]; intros st; cbn [run_batches]; [by left|].
    destruct (process_batch cfg net series_meta st nb) as [st1|e] eqn:Hstep;
      [|by left].
    intros [Hrow|(nb' & response & partial & ? & ?)]%IH.
    - destruct (process_batch_row_origin _ _ _ _ _ _ _ _ Hstep Hrow)
        as [?|(response & partial & ?)]; [by left|right].
      exists nb, response, partial. split; [left|done].
    - right. exists nb', response, partial. split; [by right|done]. }
  intros [Hinit|?]%Hgen; [|done].
  unfold initial_state in Hinit. cbn [master] in Hinit.
  by rewrite lookup_empty in Hinit.
Qed.

Lemma parse_series_keeps_columns (SY : Z) (series_meta : gmap string descriptor)
    (partial partial' : gmap key (gmap string cell)) (series : json)
    (k : key) (col : string) :
  parse_series SY series_meta partial series = Ok partial' →
  column_filled partial k col → column_filled partial' k col.
Proof.
  unfold parse_series.
  intros (sid & _ & ([meta|] & _ & H)%rbind_ok)%rbind_ok; [|by injection H as <-].
  apply rbind_ok in H as (data & _ & H).
  destruct (negb (truthy data)); [by injection H as <-|].
  apply rbind_ok in H as (point & _ & (y & _ & (year & _ &
    (v & _ & ([w|] & _ & H)%rbind_ok)%rbind_ok)%rbind_ok)%rbind_ok);
    injection H as <-; [|done].
  intros (row & w' & Hrow & Hcol).
  destruct (decide ((soc_code meta, msa_code meta, year) = k)) as [<-|Hne].
  - rewrite Hrow. simpl. destruct (decide (col_name meta = col)) as [<-|Hcne].
    + exists (<[col_name meta := CFloat w]> row), w.
      by rewrite !lookup_insert_eq.
    + exists (<[col_name meta := CFloat w]> row), w'.
      by rewrite lookup_insert_eq, lookup_insert_ne.
  - exists row, w'. by rewrite lookup_insert_ne.
Qed.

Lemma parse_series_fills_column (SY : Z) (series_meta : gmap string descriptor)
    (partial partial' : gmap key (gmap string cell)) (series : json)
    (meta : descriptor) (year : Z) (w : Py.float) :
  parse_series SY series_meta partial series = Ok partial' →
  reports SY series_meta series meta year w →
  column_filled partial' (soc_code meta, msa_code meta, year) (col_name meta).
Proof.
  unfold parse_series, reports, series_descriptor, first_point, point_year, point_wage.
  intros H [Hmeta (point & Hpoint & Hyear & Hwage)].
  destruct (dict_get series "seriesID" (JStr "")) as [[| | | |sid| |]|]; try done.
  simpl in H. rewrite Hmeta in H. simpl in H.
  destruct (dict_get series "data" (JArr [])) as [data|]; [|done]. simpl in H.
  destruct (truthy data); [|done]. simpl in H.
  destruct (first_item data) as [p|]; [|done]. injection Hpoint as ->. simpl in H.
  destruct (dict_get point "year" (JInt SY)) as [y|]; [|done]. simpl in H, Hyear.
  rewrite Hyear in H. simpl in H.
  destruct (dict_get point "value" (JStr "")) as [v|]; [|done]. simpl in H, Hwage.
  rewrite Hwage in H. simpl in H. injection H as <-.
  eexists _, w. by rewrite !lookup_insert_eq.
Qed.

Lemma for_each_parse_series_columns (SY : Z) (series_meta : gmap string descriptor)
    (items : list json) (partial partial' : gmap key (gmap string cell))
    (series : json) (meta : descriptor) (year : Z) (w : Py.float) :
  for_each (parse_series SY series_meta) items partial = Ok partial' →
  series ∈ items → reports SY series_meta series meta year w →
  column_filled partial' (soc_code meta, msa_code meta, year) (col_name meta).
Proof.
  intros Hloop Hin Hrep.
  assert (Hkeep : ∀ items p p' k col,
    for_each (parse_series SY series_meta) items p = Ok p' →
    column_filled p k col → column_filled p' k col).
  { clear. intros items. induction items as [|x items IH]; intros p p' k col; simpl.
    - by intros [= <-].
    - intros (p1 & H1 & Hrest)%rbind_ok ?. eapply IH; [done|].
      by eapply parse_series_keeps_columns. }
  revert partial Hloop. induction items as [|x items IH]; intros partial;
    [by apply elem_of_nil in Hin|].
  simpl. intros (p1 & H1 & Hrest)%rbind_ok.
  apply elem_of_cons in Hin as [<-|Hin]; [|by eapply IH].
  eapply Hkeep; [done|]. by eapply parse_series_fills_column.
Qed.

(** X6: within one response the columns of a key are merged: for every
    series that reports a number, the record of its key exists in the partial
    mapping and holds a number in the column of the series — whatever other
    series of the response came before or after it. *)
Theorem parse_response_fills_reported_columns (SY : Z) (response_data : json)
    (series_meta : gmap string descriptor) (partial : gmap key (gmap string cell))
    (series : json) (meta : descriptor) (year : Z) (w : Py.float) :
  parse_response SY response_data series_meta = Ok partial →
  series ∈ response_series response_data →
  reports SY series_meta series meta year w →
  ∃ row w',
    partial !! (soc_code meta, msa_code meta, year) = Some row
    ∧ row !! col_name meta = Some (CFloat w').
Proof.
  unfold parse_response, response_series.
  intros (results & -> & (series_list & -> & H)%rbind_ok)%rbind_ok.
  destruct series_list as [| | | | |items|]; try by intros ?%elem_of_nil.
  intros Hin Hrep. by eapply for_each_parse_series_columns.
Qed.

Lemma parse_response_fills_reported_columns_witness :
  let series_meta := series_meta_of [denver_mean] in
  let response := response_with "2024" "125000" ["OEUM001974000000015125203"] in
  ∃ partial row w',
    parse_response 2024 response series_meta = Ok partial
    ∧ partial !! ("15-1252", "19740", 2024%Z) = Some row
    ∧ row !! "annual_mean" = Some (CFloat w').
Proof.
  intros series_meta response.
  pose (parsed := parse_response 2024 response series_meta).
  assert (Hparse : parse_response 2024 response series_meta = parsed) by reflexivity.
  assert (Hok : is_ok parsed = true) by (vm_compute; reflexivity).
  clearbody parsed. destruct parsed as [partial|e]; [|discriminate Hok].
  destruct (parse_response_fills_reported_columns 2024 response series_meta partial
              (series_with "2024" "125000" "OEUM001974000000015125203")
              denver_mean 2024 (Py.FDec false 125000 0) Hparse)
    as (row & w' & Hrow & Hcol).
  - apply list_elem_of_In. vm_compute. by left.
  - split; [vm_compute; reflexivity|].
    exists (JObj [("year", JStr "2024"); ("value", JStr "125000")]).
    split_and!; vm_compute; reflexivity.
  - by exists partial, row, w'.
Defined.

(** ** The descriptor map *)

Lemma series_meta_fold_other (l : list descriptor) (m : gmap string descriptor)
    (sid : string) :
  sid ∉ series_id <$> l →
  foldl (λ m s, <[series_id s := s]> m) m l !! sid = m !! sid.
Proof.
  revert m. induction l as [|x l IH]; intros m Hnotin; [done|].
  simpl. apply not_elem_of_cons in Hnotin as [Hne Hnotin].
  rewrite IH by done. by rewrite lookup_insert_ne.
Qed.

Lemma series_meta_of_lookup (l : list descriptor) (d : descriptor) :
  NoDup (series_id <$> l) → d ∈ l → series_meta_of l !! series_id d = Some d.
Proof.
  unfold series_meta_of. generalize (∅ : gmap string descriptor).
  induction l as [|x l IH]; intros m Hnd Hin; [by apply elem_of_nil in Hin|].
  simpl in *. apply NoDup_cons in Hnd as [Hx Hnd].
  apply elem_of_cons in Hin as [->|Hin]; [|by apply IH].
  rewrite series_meta_fold_other by done. apply lookup_insert_eq.
Qed.

Lemma series_meta_of_size (l : list descriptor) :
  NoDup (series_id <$> l) → size (series_meta_of l) = length l.
Proof.
  unfold series_meta_of.
  assert (Hgen : ∀ m : gmap string descriptor,
    (∀ x, x ∈ l → m !! series_id x = None) →
    NoDup (series_id <$> l) →
    size (foldl (λ m s, <[series_id s := s]> m) m l) = size m + length l).
  { induction l as [|x l IH]; intros m Hfresh Hnd; [simpl; lia|].
    simpl in *. apply NoDup_cons in Hnd as [Hx Hnd].
    rewrite IH; [|..|done].
    - rewrite map_size_insert_None by (apply Hfresh; left). lia.
    - intros y Hy. rewrite lookup_insert_ne; [apply Hfresh; by right|].
      intros Heq. apply Hx. rewrite Heq. apply list_elem_of_fmap. by exists y. }
  intros Hnd. rewrite Hgen; [by rewrite map_size_empty|by intros|done].
Qed.

(** X7: on a catalog of distinct codes XX-XXXX the lookup map of [main]
    finds every descriptor by its identifier and finds nothing else: it has
    one entry per series. *)
Theorem series_meta_finds_each_descriptor (soc_map : list (string * string)) :
  NoDup soc_map.*1 → Forall (λ c, is_soc_code c = true) soc_map.*1 →
  (∀ sid d, series_meta_of (build_all_series soc_map) !! sid = Some d ↔
            d ∈ build_all_series soc_map ∧ series_id d = sid)
  ∧ size (series_meta_of (build_all_series soc_map)) = 30 * length soc_map.
Proof.
  intros Hnd Hsoc.
  assert (Hids : NoDup (series_id <$> build_all_series soc_map)).
  { apply NoDup_fmap_2_strong; [|by apply nodup_build_all_series].
    intros d1 d2 ???. by apply (series_id_inj_on_build soc_map). }
  split.
  - intros sid d. split; [apply elem_of_series_meta_of|].
    intros [Hd <-]. by apply series_meta_of_lookup.
  - by rewrite series_meta_of_size, length_build_all_series.
Qed.

Lemma series_meta_finds_each_descriptor_witness :
  series_meta_of (build_all_series one_occupation) !! "OEUM001974000000015125203"
  = Some denver_mean
  ∧ size (series_meta_of (build_all_series one_occupation)) = 30.
Proof.
  destruct (series_meta_finds_each_descriptor one_occupation) as [Hfind Hsize].
  - apply (bool_decide_unpack _). vm_compute. exact I.
  - repeat constructor.
  - split; [|exact Hsize]. apply Hfind. split; [|reflexivity].
    apply elem_of_build_all_series.
    exists "Denver CO", "19740", "15-1252", "Software Developers", "03", "annual_mean".
    split_and!; [| |  |reflexivity].
    + unfold MSA_CODES. do 4 right. left.
    + left.
    + left.
Defined.

(** ** The batch fetcher *)

(** X8: [fetch_bls_batch] raises exactly on a body that is not a JSON
    object, be it no JSON at all or a list, a string, a number, a boolean or
    null.  An object never makes it raise: it is handed back as it is when it
    has both [status] and [Results], whatever the status says, and dropped
    otherwise.  A body that is not an object and does not hold [status]
    raises [AttributeError], from the warning about the missing key. *)
Theorem fetch_bls_batch_outcomes :
  (∀ fields,
     fetch_bls_batch (PostBody (JObj fields))
     = Ok (match assoc "status" fields, assoc "Results" fields with
           | Some _, Some _ => Some (JObj fields)
           | _, _ => None
           end))
  ∧ (∀ outcome,
       raises (fetch_bls_batch outcome) ↔
       outcome = PostBodyNotJSON
       ∨ ∃ data, outcome = PostBody data ∧ ∀ fields, data ≠ JObj fields)
  ∧ (∀ data,
       (∀ fields, data ≠ JObj fields) → py_in "status" data = Ok false →
       fetch_bls_batch (PostBody data) = Raise AttributeError).
Proof.
  assert (Hobject : ∀ fields,
     fetch_bls_batch (PostBody (JObj fields))
     = Ok (match assoc "status" fields, assoc "Results" fields with
           | Some _, Some _ => Some (JObj fields)
           | _, _ => None
           end)).
  { intros fields. unfold fetch_bls_batch, py_in, py_item, py_keys, dict_get. simpl.
    destruct (assoc "status" fields) as [status|]; [|done].
    destruct (assoc "Results" fields); [|done]. simpl.
    by destruct (differs_from status _). }
  assert (Hkeys : ∀ data, (∀ fields, data ≠ JObj fields) →
                          py_keys data = Raise AttributeError).
  { intros data Hno. destruct data as [| | | | | |fields]; try done.
    by destruct (Hno fields). }
  assert (Hitem : ∀ data k, (∀ fields, data ≠ JObj fields) →
                            py_item data k = Raise TypeError).
  { intros data k Hno. destruct data as [| | | | | |fields]; try done.
    by destruct (Hno fields). }
  split_and!; [done| |].
  - intros [| |data|].
    + simpl. split; [by intros [e ?]|]. by intros [?|(data & ? & _)].
    + simpl. split; [by intros [e ?]|]. by intros [?|(data & ? & _)].
    + split.
      * intros Hraise. right. exists data. split; [done|]. intros fields ->.
        rewrite Hobject in Hraise. by destruct Hraise.
      * intros [?|(data' & [= <-] & Hno)]; [done|]. unfold fetch_bls_batch.
        destruct (py_in "status" data) as [[]|e]; cbn [rbind negb];
          [|rewrite Hkeys by done; by eexists|by eexists].
        destruct (py_in "Results" data) as [[]|e]; cbn [rbind negb];
          rewrite ?Hkeys, ?Hitem by done; by eexists.
    + simpl. split; [by left|by eexists].
  - intros data Hno Hstatus. unfold fetch_bls_batch. rewrite Hstatus.
    cbn [rbind negb]. by rewrite Hkeys.
Qed.

Lemma fetch_bls_batch_outcomes_witness :
  fetch_bls_batch (PostBody (JArr [])) = Raise AttributeError
  ∧ raises (fetch_bls_batch (PostBody (JStr "status, Results"))).
Proof.
  destruct fetch_bls_batch_outcomes as (_ & Hraises & Hkeys). split.
  - by apply Hkeys.
  - apply Hraises. right. by eexists.
Defined.

(** ** The suppression-aware parser, again *)














(** What [float] does beyond [2 ^ 53] and beyond the largest float: the
    nearest float, the even one at a tie, and infinity. *)
Lemma float_of_string_rounds :
  Py.float_of_string "9007199254740993" = Some (Py.FDec false 9007199254740992 0)
  ∧ Py.float_of_string "9007199254740995" = Some (Py.FDec false 9007199254740996 0)
  ∧ Py.float_of_string "0.1"
    = Some (Py.FDec false 1000000000000000055511151231257827021181583404541015625 (-55))
  ∧ Py.float_of_string "1.50" = Some (Py.FDec false 15 (-1))
  ∧ Py.float_of_string "1e309" = Some (Py.FInf false)
  ∧ Py.float_of_string "-1e-400" = Some (Py.FDec true 0 0).
Proof. split_and!; vm_compute; reflexivity. Qed.

(** What [int] refuses: whitespace that only [str.strip] knows, here the
    file separator, and more digits than [INT_MAX_STR_DIGITS]. *)
Lemma int_of_string_limits :
  Py.int_of_string " 2024 " = Some 2024%Z
  ∧ Py.int_of_string (String (ascii_of_nat 28) "2024") = None
  ∧ Py.int_of_string (Py.zeros 4300) = Some 0%Z
  ∧ Py.int_of_string (Py.zeros 4301) = None.
Proof. split_and!; vm_compute; reflexivity. Qed.

Lemma rstrip_spaces (p : string) :
  Py.all_chars Py.is_space p = true → Py.rstrip p = EmptyString.
Proof.
  induction p as [|c p IH]; [done|]. simpl.
  intros [Hc Hp]%andb_true_iff. by rewrite (IH Hp), Hc.
Qed.

Lemma rstrip_append_spaces (s p : string) :
  Py.all_chars Py.is_space p = true → Py.rstrip (s +:+ p) = Py.rstrip s.
Proof.
  intros Hp. induction s as [|c s IH]; [by apply rstrip_spaces|].
  rewrite append_cons. simpl. by rewrite IH.
Qed.

Lemma lstrip_prepend_spaces (p s : string) :
  Py.all_chars Py.is_space p = true → Py.lstrip (p +:+ s) = Py.lstrip s.
Proof.
  induction p as [|c p IH]; [done|]. rewrite append_cons. simpl.
  intros [Hc Hp]%andb_true_iff. rewrite Hc. by apply IH.
Qed.

Lemma lstrip_append (s p : string) :
  Py.lstrip (s +:+ p)
  = match Py.lstrip s with
    | EmptyString => Py.lstrip p
    | t => t +:+ p
    end.
Proof.
  induction s as [|c s IH]; [done|]. rewrite append_cons. simpl.
  destruct (Py.is_space c); [done|]. by rewrite append_cons.
Qed.

Lemma strip_padded (p1 p2 s : string) :
  Py.all_chars Py.is_space p1 = true → Py.all_chars Py.is_space p2 = true →
  Py.strip (p1 +:+ s +:+ p2) = Py.strip s.
Proof.
  intros H1 H2. unfold Py.strip.
  rewrite lstrip_prepend_spaces, lstrip_append by done.
  destruct (Py.lstrip s) as [|c t] eqn:Hs.
  - rewrite <- (append_empty_r p2), lstrip_prepend_spaces by done. done.
  - by rewrite rstrip_append_spaces.
Qed.

(** X10: whitespace around the value does not matter: [safe_wage] gives the
    same result on a string and on the string padded with whitespace on
    either side. *)
Theorem safe_wage_ignores_padding (p1 p2 s : string) :
  Py.all_chars Py.is_space p1 = true → Py.all_chars Py.is_space p2 = true →
  safe_wage (JStr (p1 +:+ s +:+ p2)) = safe_wage (JStr s).
Proof. intros H1 H2. unfold safe_wage. by rewrite strip_padded. Qed.

Lemma safe_wage_ignores_padding_witness :
  safe_wage (JStr "  125000 ") = safe_wage (JStr "125000")
  ∧ safe_wage (JStr " - ") = Ok None.
Proof.
  split.
  - apply (safe_wage_ignores_padding "  " " " "125000"); reflexivity.
  - exact (eq_trans (safe_wage_ignores_padding " " " " "-" eq_refl eq_refl) eq_refl).
Defined.

(** ** The loader and the audit row, again *)

Lemma upsert_rows_written_bound (faults : db_faults) (rows : list (gmap string cell))
    (i : nat) (conn : connection) (written : nat) :
  (upsert_rows faults i rows conn written).1.2 ≤ written + length rows.
Proof.
  revert i conn written. induction rows as [|row rows IH]; intros i conn written;
    cbn [upsert_rows length]; [simpl; lia|].
  destruct (build_record row) as [record|e]; [|simpl; lia].
  destruct (upsert_fault faults i); [simpl; lia|].
  destruct (bls_upsert _ record) as [[table rowcount]|e]; [|simpl; lia].
  etrans; [apply IH|]. destruct (rowcount =? 1)%nat; lia.
Qed.

Lemma upsert_rows_log (faults : db_faults) (rows : list (gmap string cell))
    (i : nat) (conn : connection) (written : nat) :
  pipeline_run_log (pending (upsert_rows faults i rows conn written).1.1)
  = pipeline_run_log (pending conn).
Proof.
  revert i conn written. induction rows as [|row rows IH]; intros i conn written;
    cbn [upsert_rows]; [done|].
  destruct (build_record row) as [record|e]; [|done].
  destruct (upsert_fault faults i); [done|].
  destruct (bls_upsert _ record) as [[table rowcount]|e]; [|done].
  by rewrite IH.
Qed.

Lemma load_wage_rows_bound (faults : db_faults) (conn conn' : connection)
    (aggregated : gmap key (gmap string cell)) (n : nat) :
  load_wage_rows faults conn aggregated = (conn', Ok n) → n ≤ size aggregated.
Proof.
  unfold load_wage_rows. intros Hload.
  pose proof (upsert_rows_written_bound faults (map_to_list aggregated).*2 0 conn 0)
    as Hbound.
  rewrite length_fmap, length_map_to_list in Hbound.
  destruct (upsert_rows _ _ _ _ _) as [[c1 w] [e|]]; [done|].
  destruct (commit_fault faults); [done|].
  injection Hload as _ <-. simpl in Hbound. lia.
Qed.

Lemma load_wage_rows_settled (faults : db_faults) (conn : connection)
    (aggregated : gmap key (gmap string cell)) :
  pending conn = committed conn →
  let conn' := (load_wage_rows faults conn aggregated).1 in
  pending conn' = committed conn'
  ∧ pipeline_run_log (committed conn') = pipeline_run_log (committed conn).
Proof.
  intros Hsettled. unfold load_wage_rows.
  pose proof (upsert_rows_log faults (map_to_list aggregated).*2 0 conn 0) as Hlog.
  pose proof (upsert_rows_committed faults (map_to_list aggregated).*2 0 conn 0) as Hc.
  destruct (upsert_rows _ _ _ _ _) as [[c1 w] [e|]]; simpl in *.
  - by rewrite Hc.
  - destruct (commit_fault faults); simpl; rewrite ?Hc; [done|].
    by rewrite Hlog, Hsettled.
Qed.

Lemma main_try_settled (cfg : config) (net : network) (faults : db_faults)
    (conn : connection) (soc_map : list (string * string)) :
  pending conn = committed conn →
  let conn' := v_conn (main_try cfg net faults conn soc_map).1 in
  pending conn' = committed conn'
  ∧ pipeline_run_log (committed conn') = pipeline_run_log (committed conn).
Proof.
  intros Hsettled. unfold main_try. destruct soc_map as [|kv soc_map]; [done|].
  destruct (run_batches _ _ _ _ _) as [st [e|]]; [done|].
  destruct (0 <? size (master st))%nat; [|done].
  pose proof (load_wage_rows_settled faults conn (master st) Hsettled) as Hload.
  by destruct (load_wage_rows _ _ _) as [conn' [written|e]].
Qed.

Lemma main_try_written_bound (cfg : config) (net : network) (faults : db_faults)
    (conn : connection) (soc_map : list (string * string)) :
  v_written (main_try cfg net faults conn soc_map).1
  ≤ v_received (main_try cfg net faults conn soc_map).1.
Proof.
  unfold main_try. destruct soc_map as [|kv soc_map]; [done|].
  destruct (run_batches _ _ _ _ _) as [st [e|]]; [done|].
  destruct (0 <? size (master st))%nat; [|simpl; lia].
  destruct (load_wage_rows _ _ _) as [conn' [written|e]] eqn:Hload; [|simpl; lia].
  simpl. by eapply load_wage_rows_bound.
Qed.

Lemma main_vars (cfg : config) (net : network) (faults : db_faults)
    (conn : connection) (soc_map : list (string * string)) :
  final_vars (main cfg net faults conn soc_map)
  = (main_try cfg net faults conn soc_map).1.
Proof. unfold main. by destruct (main_try _ _ _ _ _). Qed.

(** X11: the count the loader returns never exceeds the number of aggregated
    records, so in the audit row of every run, whatever the network and the
    database do, the records written are at most the records received. *)
Theorem written_at_most_received (cfg : config) (net : network) (faults : db_faults)
    (conn : connection) (soc_map : list (string * string))
    (aggregated : gmap key (gmap string cell)) :
  match (load_wage_rows faults conn aggregated).2 with
  | Ok written => written ≤ size aggregated
  | Raise _ => True
  end
  ∧ records_written (audit_row_of (main cfg net faults conn soc_map))
    ≤ records_received (audit_row_of (main cfg net faults conn soc_map)).
Proof.
  split.
  - destruct (load_wage_rows _ _ _) as [conn' [written|e]] eqn:Hload; [|done].
    by eapply load_wage_rows_bound.
  - cbn [audit_row_of records_written records_received].
    rewrite main_vars. apply main_try_written_bound.
Qed.

(** X12: the run is logged exactly once.  On a connection without an open
    transaction, the run leaves the audit table as it found it plus one
    row, the row of this run, when the audit insert succeeds, and as it found
    it when the insert fails; no transaction is left open either way. *)
Theorem run_logged_exactly_once (cfg : config) (net : network) (faults : db_faults)
    (conn : connection) (soc_map : list (string * string)) :
  pending conn = committed conn →
  let run := main cfg net faults conn soc_map in
  pipeline_run_log (committed (final_conn run))
  = pipeline_run_log (committed conn)
    ++ match audit_fault faults with
       | None => [audit_row_of run]
       | Some _ => []
       end
  ∧ pending (final_conn run) = committed (final_conn run).
Proof.
  intros Hsettled run. subst run.
  destruct (main_try_settled cfg net faults conn soc_map Hsettled) as [Hp Hlog].
  unfold main. destruct (main_try _ _ _ _ _) as [vars exc]. simpl in Hp, Hlog.
  cbn [final_conn]. unfold log_pipeline_run.
  destruct (audit_fault faults); simpl.
  - by rewrite app_nil_r.
  - by rewrite Hp, Hlog.
Qed.

Lemma run_logged_exactly_once_witness :
  let run := main public_tier echo_network no_faults empty_connection one_occupation in
  pipeline_run_log (committed (final_conn run)) = [audit_row_of run]
  ∧ pending (final_conn run) = committed (final_conn run).
Proof.
  exact (run_logged_exactly_once public_tier echo_network no_faults
           empty_connection one_occupation eq_refl).
Defined.

Lemma upsert_rows_audit_fault (faults : db_faults) (a : option string)
    (rows : list (gmap string cell)) (i : nat) (conn : connection) (written : nat) :
  upsert_rows (with_audit_fault faults a) i rows conn written
  = upsert_rows faults i rows conn written.
Proof.
  revert i conn written. induction rows as [|row rows IH]; intros i conn written;
    cbn [upsert_rows]; [done|].
  destruct (build_record row) as [record|e]; [|done].
  change (upsert_fault (with_audit_fault faults a) i) with (upsert_fault faults i).
  destruct (upsert_fault faults i); [done|].
  destruct (bls_upsert _ record) as [[table rowcount]|e]; [|done].
  apply IH.
Qed.

Lemma main_try_audit_fault (cfg : config) (net : network) (faults : db_faults)
    (a : option string) (conn : connection) (soc_map : list (string * string)) :
  main_try cfg net (with_audit_fault faults a) conn soc_map
  = main_try cfg net faults conn soc_map.
Proof.
  unfold main_try. destruct soc_map as [|kv soc_map]; [done|].
  destruct (run_batches _ _ _ _ _) as [st [e|]]; [done|].
  destruct (0 <? size (master st))%nat; [|done].
  unfold load_wage_rows. by rewrite upsert_rows_audit_fault.
Qed.

(** X13: a failed audit insert does not touch the load.  Whether the insert
    into [pipeline_run_log] succeeds or fails, the run has the same status,
    error, counts and gaps, which are set before the run is logged, and on a
    connection without an open transaction it leaves the same wage table: the
    one the [try] block left committed. *)
Theorem audit_failure_leaves_the_load (cfg : config) (net : network)
    (faults : db_faults) (a : option string) (conn : connection)
    (soc_map : list (string * string)) :
  pending conn = committed conn →
  let run := main cfg net faults conn soc_map in
  let run' := main cfg net (with_audit_fault faults a) conn soc_map in
  final_status run' = final_status run
  ∧ final_error run' = final_error run
  ∧ final_vars run' = final_vars run
  ∧ bls_wage_data (committed (final_conn run))
    = bls_wage_data (committed (v_conn (final_vars run)))
  ∧ bls_wage_data (committed (final_conn run'))
    = bls_wage_data (committed (v_conn (final_vars run))).
Proof.
  intros Hclean run run'. subst run run'.
  destruct (main_try_settled cfg net faults conn soc_map Hclean) as [Hp _].
  unfold main. rewrite main_try_audit_fault.
  destruct (main_try _ _ _ _ _) as [vars exc]. simpl in Hp.
  cbn [final_status final_error final_vars final_conn].
  split_and!; try done; unfold log_pipeline_run.
  - destruct (audit_fault faults); simpl; by rewrite ?Hp.
  - destruct a; simpl; by rewrite ?Hp.
Qed.

Lemma audit_failure_leaves_the_load_witness :
  let run :=
    main public_tier echo_network no_faults empty_connection one_occupation in
  let run' :=
    main public_tier echo_network (with_audit_fault no_faults (Some "disk full"))
      empty_connection one_occupation in
  final_vars run' = final_vars run
  ∧ bls_wage_data (committed (final_conn run'))
    = bls_wage_data (committed (v_conn (final_vars run))).
Proof.
  intros run run'.
  destruct (audit_failure_leaves_the_load public_tier echo_network no_faults
              (Some "disk full") empty_connection one_occupation eq_refl)
    as (_ & _ & Hvars & _ & Htable).
  by split.
Defined.

Lemma stored_key_inj (k1 k2 : key) : stored_key k1 = stored_key k2 → k1 = k2.
Proof.
  destruct k1 as [[a1 b1] y1], k2 as [[a2 b2] y2]. unfold stored_key. simpl.
  by intros [= -> -> ->].
Qed.

Lemma unique_key_keyed (k : key) (row record : gmap string cell) :
  row_keyed k row → build_record row = Ok record →
  unique_key (upsert_row record) = stored_key k.
Proof.
  intros Hk Hb. destruct (build_record_keyed k row Hk) as (record' & Hb' & H1 & H2 & H3).
  rewrite Hb' in Hb. injection Hb as <-.
  destruct (upsert_row_key record') as (E1 & E2 & E3).
  unfold unique_key, UNIQUE_COLUMNS, stored_key. rewrite !fmap_cons, fmap_nil.
  by rewrite E1, E2, E3, H1, H2, H3.
Qed.

Lemma already_stored_key (k : key) (row : gmap string cell)
    (table : list (gmap string cell)) :
  row_keyed k row → already_stored table row →
  stored_key k ∈ unique_key <$> table.
Proof.
  intros Hk (record & Hb & _ & Hex).
  apply existsb_exists in Hex as (r & Hin & Hc).
  unfold conflicts in Hc. apply bool_decide_eq_true in Hc.
  rewrite (unique_key_keyed k row record Hk Hb) in Hc.
  apply list_elem_of_fmap. exists r. split; [done|]. by apply list_elem_of_In.
Qed.

Lemma load_wage_rows_fresh (faults : db_faults) (conn conn' : connection)
    (aggregated : gmap key (gmap string cell)) (n : nat) :
  bls_wage_data (pending conn) = [] →
  map_Forall row_keyed aggregated →
  load_wage_rows faults conn aggregated = (conn', Ok n) →
  n = size aggregated
  ∧ length (bls_wage_data (committed conn')) = size aggregated
  ∧ pending conn' = committed conn'.
Proof.
  unfold load_wage_rows. intros Hempty Hkeyed Hload.
  pose proof (upsert_rows_written_bound faults (map_to_list aggregated).*2 0 conn 0)
    as Hbound.
  rewrite length_fmap, length_map_to_list in Hbound.
  destruct (upsert_rows _ _ _ _ _) as [[c1 w] [e|]] eqn:Hup; [done|].
  destruct (commit_fault faults); [done|]. injection Hload as <- <-.
  apply upsert_rows_ok in Hup as (_ & _ & (new & Htab & Hw) & Hstored & _).
  rewrite Hempty in Htab. simpl in Htab, Hbound, Hw.
  assert (Hall : size aggregated ≤ length new).
  { rewrite <- (length_map_to_list aggregated), <- (length_fmap fst),
      <- (length_fmap stored_key), <- (length_fmap unique_key new).
    apply submseteq_length, NoDup_submseteq.
    - apply NoDup_fmap_2; [intros ??; apply stored_key_inj|].
      apply NoDup_fst_map_to_list.
    - intros x Hx. apply list_elem_of_fmap in Hx as (k & -> & Hk).
      apply list_elem_of_fmap in Hk as ([k' row] & -> & Hin). rewrite <- Htab.
      apply (already_stored_key k' row).
      + apply elem_of_map_to_list in Hin. by apply Hkeyed.
      + rewrite Forall_forall in Hstored. apply Hstored.
        apply list_elem_of_fmap. by exists (k', row). }
  simpl. rewrite Htab. split_and!; [lia|lia|done].
Qed.

Lemma main_try_fresh (cfg : config) (net : network) (faults : db_faults)
    (conn : connection) (soc_map : list (string * string)) (vars : run_vars) :
  pending conn = committed conn → bls_wage_data (committed conn) = [] →
  main_try cfg net faults conn soc_map = (vars, None) →
  v_written vars = v_received vars
  ∧ length (bls_wage_data (committed (v_conn vars))) = v_received vars
  ∧ pending (v_conn vars) = committed (v_conn vars).
Proof.
  intros Hsettled Hempty. unfold main_try. destruct soc_map as [|kv soc_map]; [done|].
  pose proof (run_batches_rows cfg net (series_meta_of (build_all_series (kv :: soc_map)))
                (enumerate1 (batches_of (BATCH_SIZE cfg) (build_all_series (kv :: soc_map))))
                initial_state (wage_columns_only_build _) (map_Forall_empty _)) as Hrows.
  destruct (run_batches _ _ _ _ _) as [st [e|]]; [done|]. simpl in Hrows.
  destruct (0 <? size (master st))%nat eqn:Hpos.
  - destruct (load_wage_rows _ _ _) as [conn' [written|e]] eqn:Hload; [|done].
    intros [= <-]. simpl.
    apply load_wage_rows_fresh in Hload as (-> & ? & ?); [done| |done].
    by rewrite Hsettled.
  - intros [= <-]. simpl. apply Nat.ltb_ge in Hpos. rewrite Hempty. simpl.
    split_and!; [lia|lia|done].
Qed.

(** X14: a successful run on an empty wage table writes every record it
    received: the two counts of the audit row agree, the discrepancy flag is
    off, and the wage table holds exactly that many rows afterwards. *)
Theorem first_successful_run_writes_all (cfg : config) (net : network)
    (faults : db_faults) (conn : connection) (soc_map : list (string * string)) :
  pending conn = committed conn → bls_wage_data (committed conn) = [] →
  let run := main cfg net faults conn soc_map in
  final_status run = "SUCCESS" →
  records_written (audit_row_of run) = records_received (audit_row_of run)
  ∧ discrepancy_flag (audit_row_of run) = false
  ∧ length (bls_wage_data (committed (final_conn run)))
    = records_received (audit_row_of run).
Proof.
  intros Hsettled Hempty run. subst run.
  pose proof (main_try_fresh cfg net faults conn soc_map) as Hfresh.
  unfold main. destruct (main_try _ _ _ _ _) as [vars [e|]]; [done|]. intros _.
  destruct (Hfresh vars Hsettled Hempty eq_refl) as (Hw & Hlen & Hp).
  cbn [audit_row_of records_written records_received discrepancy_flag
       final_vars final_conn].
  rewrite Hw, Nat.eqb_refl. split_and!; [done|done|].
  unfold log_pipeline_run. destruct (audit_fault faults); simpl; by rewrite ?Hp.
Qed.

Lemma first_successful_run_writes_all_witness :
  let run := main public_tier echo_network no_faults empty_connection one_occupation in
  records_written (audit_row_of run) = records_received (audit_row_of run)
  ∧ discrepancy_flag (audit_row_of run) = false
  ∧ length (bls_wage_data (committed (final_conn run)))
    = records_received (audit_row_of run).
Proof.
  apply (first_successful_run_writes_all public_tier echo_network no_faults
           empty_connection one_occupation); [reflexivity|reflexivity|].
  vm_compute. reflexivity.
Defined.

(** X15: what the run aggregates is fit for the loader.  In every run, each
    row of the aggregation carries the fields of its key and the two titles,
    so building the parameters of the insert raises no [KeyError], and the
    row proposed holds the three parts of the key, none of them null, in the
    columns of the uniqueness constraint. *)
Theorem aggregated_rows_are_loadable (cfg : config) (net : network)
    (faults : db_faults) (conn : connection) (soc_map : list (string * string)) :
  map_Forall (λ k row,
      row_keyed k row
      ∧ ∃ record,
          build_record row = Ok record
          ∧ unique_key (upsert_row record) = stored_key k
          ∧ (CNone ∉ unique_key (upsert_row record)))
    (master (v_state (final_vars (main cfg net faults conn soc_map)))).
Proof.
  rewrite main_state. destruct soc_map as [|kv soc_map]; [apply map_Forall_empty|].
  eapply map_Forall_impl;
    [apply run_batches_rows; [apply wage_columns_only_build|apply map_Forall_empty]|].
  intros k row Hk. split; [done|].
  destruct (build_record_keyed k row Hk) as (record & Hb & _).
  exists record. split; [done|].
  rewrite (unique_key_keyed k row record Hk Hb). split; [done|].
  unfold stored_key. rewrite !elem_of_cons, elem_of_nil. by intros [?|[?|[?|[]]]].
Qed.

(** X16: an empty catalog fails the run before any request: whatever the
    settings and the network, the run is FAILED with exit code 1, the audit
    row counts nothing requested, received or written, there are no gaps,
    and the wage table is what the connection saw. *)
Theorem empty_catalog_fails_before_any_request (cfg cfg' : config)
    (net net' : network) (faults : db_faults) (conn : connection) :
  let run := main cfg net faults conn [] in
  run = main cfg' net' faults conn []
  ∧ final_status run = "FAILED"
  ∧ exit_code run = 1
  ∧ final_error run
    = Some "soc_code_reference is empty — run seed_reference_data first."
  ∧ records_requested (audit_row_of run) = 0
  ∧ records_received (audit_row_of run) = 0
  ∧ records_written (audit_row_of run) = 0
  ∧ discrepancy_flag (audit_row_of run) = false
  ∧ series_gaps (v_state (final_vars run)) = []
  ∧ bls_wage_data (committed (final_conn run))
    = bls_wage_data (match audit_fault faults with
                     | None => pending conn
                     | Some _ => committed conn
                     end).
Proof.
  intros run. subst run. unfold main, main_try. cbn [final_status exit_code
    final_error audit_row_of final_vars final_conn v_state v_received v_written
    total_series v_conn records_requested records_received records_written
    discrepancy_flag series_gaps initial_state].
  split_and!; try done.
  unfold log_pipeline_run. by destruct (audit_fault faults).
Qed.

(** ** The catalog *)

Lemma elem_of_dict_set_keys {A} (k x : string) (v : A) (d : list (string * A)) :
  x ∈ (dict_set k v d).*1 ↔ x = k ∨ x ∈ d.*1.
Proof.
  induction d as [|[k' v'] d IH]; simpl.
  - rewrite list_elem_of_singleton, elem_of_nil. tauto.
  - destruct (String.eqb k' k) eqn:Hk.
    + apply String.eqb_eq in Hk as ->. simpl. rewrite elem_of_cons. tauto.
    + simpl. rewrite !elem_of_cons, IH. tauto.
Qed.

Lemma NoDup_dict_set {A} (k : string) (v : A) (d : list (string * A)) :
  NoDup d.*1 → NoDup (dict_set k v d).*1.
Proof.
  induction d as [|[k' v'] d IH]; simpl.
  - intros _. apply NoDup_singleton.
  - rewrite NoDup_cons. intros [Hk' Hd].
    destruct (String.eqb k' k) eqn:Hk; simpl; rewrite NoDup_cons; [done|].
    split; [|by apply IH]. rewrite elem_of_dict_set_keys. intros [->|?]; [|done].
    by rewrite String.eqb_refl in Hk.
Qed.

Lemma assoc_dict_set {A} (k x : string) (v : A) (d : list (string * A)) :
  assoc x (dict_set k v d) = if String.eqb k x then Some v else assoc x d.
Proof.
  induction d as [|[k' v'] d IH]; simpl; [done|].
  destruct (String.eqb k' k) eqn:Hk; simpl.
  - apply String.eqb_eq in Hk as ->. by destruct (String.eqb k x).
  - rewrite IH. destruct (String.eqb k' x) eqn:Hx; [|done].
    apply String.eqb_eq in Hx as ->. by rewrite String.eqb_sym, Hk.
Qed.

Lemma dict_set_fresh {A} (k : string) (v : A) (d : list (string * A)) :
  k ∉ d.*1 → dict_set k v d = d ++ [(k, v)].
Proof.
  induction d as [|[k' v'] d IH]; simpl; [done|].
  rewrite not_elem_of_cons. intros [Hne Hd].
  destruct (String.eqb k' k) eqn:Hk; [by apply String.eqb_eq in Hk|].
  by rewrite IH.
Qed.

Lemma fetch_soc_codes_snoc (rows : list (string * string)) (row : string * string) :
  fetch_soc_codes (rows ++ [row]) = dict_set row.1 row.2 (fetch_soc_codes rows).
Proof. unfold fetch_soc_codes. by rewrite foldl_app. Qed.

Lemma fetch_soc_codes_keys (rows : list (string * string)) :
  NoDup (fetch_soc_codes rows).*1
  ∧ ∀ code, code ∈ (fetch_soc_codes rows).*1 ↔ code ∈ rows.*1.
Proof.
  induction rows as [|row rows [IHn IHk]] using rev_ind.
  - split; [apply NoDup_nil_2|done].
  - rewrite fetch_soc_codes_snoc. split; [by apply NoDup_dict_set|].
    intros code. rewrite elem_of_dict_set_keys, IHk, fmap_app, elem_of_app.
    simpl. rewrite list_elem_of_singleton. tauto.
Qed.

Lemma main_total_series (cfg : config) (net : network) (faults : db_faults)
    (conn : connection) (soc_map : list (string * string)) :
  records_requested (audit_row_of (main cfg net faults conn soc_map))
  = length (build_all_series soc_map).
Proof.
  cbn [audit_row_of records_requested]. rewrite main_vars. unfold main_try.
  destruct soc_map as [|kv soc_map]; [done|].
  destruct (run_batches _ _ _ _ _) as [st [e|]]; [done|].
  destruct (0 <? size (master st))%nat; [|done].
  by destruct (load_wage_rows _ _ _) as [conn' [written|e]].
Qed.

(** X17: the catalog [fetch_soc_codes] returns holds each code of the
    reference rows once, bound to the title of its last row, and a run
    on it requests thirty series for each distinct code. *)
Theorem fetch_soc_codes_one_entry_per_code (cfg : config) (net : network)
    (faults : db_faults) (conn : connection) (rows : list (string * string)) :
  let soc_map := fetch_soc_codes rows in
  NoDup soc_map.*1
  ∧ (∀ code, code ∈ soc_map.*1 ↔ code ∈ rows.*1)
  ∧ (∀ code, assoc code soc_map = assoc code (reverse rows))
  ∧ records_requested (audit_row_of (main cfg net faults conn soc_map))
    = 30 * size (list_to_set rows.*1 : gset string).
Proof.
  intros soc_map. subst soc_map.
  destruct (fetch_soc_codes_keys rows) as [Hnd Hkeys]. split_and!; [done|done| |].
  - intros code. induction rows as [|row rows IH] using rev_ind; [done|].
    rewrite fetch_soc_codes_snoc, assoc_dict_set, reverse_snoc.
    destruct row as [k v]. simpl. destruct (String.eqb k code); [done|].
    apply IH; apply fetch_soc_codes_keys.
  - rewrite main_total_series, length_build_all_series. f_equal.
    rewrite <- (length_fmap fst), <- (size_list_to_set (C := gset string)) by done.
    f_equal. apply set_eq. intros code. by rewrite !elem_of_list_to_set.
Qed.

(** X18: when the codes of the reference rows have the form XX-XXXX, the
    series built from the fetched catalog have distinct identifiers, also
    when a code has several rows, and the lookup map of [main] finds each
    descriptor under its identifier; rows with distinct codes are the
    catalog as they are. *)
Theorem catalog_series_are_distinct (rows : list (string * string)) :
  Forall (λ c, is_soc_code c = true) rows.*1 →
  let all_series := build_all_series (fetch_soc_codes rows) in
  NoDup (series_id <$> all_series)
  ∧ (∀ d, d ∈ all_series → series_meta_of all_series !! series_id d = Some d)
  ∧ (NoDup rows.*1 → fetch_soc_codes rows = rows).
Proof.
  intros Hsoc all_series. subst all_series.
  destruct (fetch_soc_codes_keys rows) as [Hnd Hkeys].
  assert (Hsoc' : Forall (λ c, is_soc_code c = true) (fetch_soc_codes rows).*1).
  { rewrite Forall_forall in *. intros c Hc. by apply Hsoc, Hkeys. }
  assert (Hids : NoDup (series_id <$> build_all_series (fetch_soc_codes rows))).
  { apply NoDup_fmap_2_strong; [|by apply nodup_build_all_series].
    intros d1 d2 ???. by apply (series_id_inj_on_build (fetch_soc_codes rows)). }
  split_and!; [done| |].
  - intros d Hd. by apply series_meta_of_lookup.
  - clear. induction rows as [|row rows IH] using rev_ind; [done|].
    rewrite fmap_app, NoDup_app. intros (Hnd & Hfresh & _).
    rewrite fetch_soc_codes_snoc, IH by done. destruct row as [k v].
    apply dict_set_fresh. intros Hk. apply (Hfresh k Hk). simpl. by apply list_elem_of_singleton.
Qed.

Lemma catalog_series_are_distinct_witness :
  let rows := [("15-1252", "Software Developers"); ("13-2011", "Accountants");
               ("15-1252", "Software Developers and Programmers")] in
  NoDup (series_id <$> build_all_series (fetch_soc_codes rows)).
Proof.
  intros rows.
  apply (catalog_series_are_distinct rows).
  repeat constructor.
Defined.

(** ** Running again *)

Lemma log_pipeline_run_settled (faults : db_faults) (conn : connection)
    (pipeline_type status : string) (requested received written : nat)
    (error_message : option string) :
  pending conn = committed conn →
  let conn' := log_pipeline_run faults conn pipeline_type status
                 requested received written error_message in
  pending conn' = committed conn'
  ∧ bls_wage_data (committed conn') = bls_wage_data (committed conn).
Proof.
  intros Hsettled. unfold log_pipeline_run.
  destruct (audit_fault faults); simpl; by rewrite ?Hsettled.
Qed.

Lemma main_try_rerun (cfg : config) (net : network) (faults : db_faults)
    (conn conn2 : connection) (soc_map : list (string * string)) (vars : run_vars) :
  main_try cfg net faults conn soc_map = (vars, None) →
  pending conn2 = committed conn2 →
  bls_wage_data (committed conn2) = bls_wage_data (committed (v_conn vars)) →
  ∃ conn3,
    main_try cfg net faults conn2 soc_map
    = ({| total_series := total_series vars; v_received := v_received vars;
          v_written := 0; v_state := v_state vars; v_conn := conn3 |}, None)
    ∧ pending conn3 = committed conn3
    ∧ bls_wage_data (committed conn3) = bls_wage_data (committed conn2).
Proof.
  unfold main_try. destruct soc_map as [|kv soc_map]; [done|].
  destruct (run_batches _ _ _ _ _) as [st [e|]]; [done|].
  destruct (0 <? size (master st))%nat.
  - destruct (load_wage_rows faults conn (master st)) as [conn' [written|e]] eqn:Hload;
      [|done].
    intros [= <-] Hsettled Htable. simpl in *.
    unfold load_wage_rows in Hload |- *.
    destruct (upsert_rows faults 0 _ conn 0) as [[c1 w] [e|]] eqn:Hup; [done|].
    destruct (commit_fault faults); [done|]. injection Hload as <- <-.
    apply upsert_rows_ok in Hup as (Hfaults & _ & _ & Hstored & _).
    simpl in Htable. rewrite <- Htable, <- Hsettled in Hstored.
    rewrite (upsert_rows_again faults _ 0 conn2 0 Hfaults Hstored).
    exists (commit conn2). split_and!; [done|done|]. simpl. by rewrite Hsettled.
  - intros [= <-] Hsettled Htable. simpl. by exists conn2.
Qed.

(** X19: running again on the same responses writes nothing.  After a
    successful run, a second run against the same network succeeds, receives
    the same number of records, writes none of them, leaves the wage table as
    it is, and raises the discrepancy flag whenever it received anything. *)
Theorem rerun_writes_nothing (cfg : config) (net : network) (faults : db_faults)
    (conn : connection) (soc_map : list (string * string)) :
  pending conn = committed conn →
  let run1 := main cfg net faults conn soc_map in
  let run2 := main cfg net faults (final_conn run1) soc_map in
  final_status run1 = "SUCCESS" →
  final_status run2 = "SUCCESS"
  ∧ records_received (audit_row_of run2) = records_received (audit_row_of run1)
  ∧ records_written (audit_row_of run2) = 0
  ∧ discrepancy_flag (audit_row_of run2)
    = negb (records_received (audit_row_of run1) =? 0)%nat
  ∧ bls_wage_data (committed (final_conn run2))
    = bls_wage_data (committed (final_conn run1)).
Proof.
  intros Hsettled run1 run2. subst run1 run2.
  destruct (main_try_settled cfg net faults conn soc_map Hsettled) as [Hp _].
  pose proof (λ conn2 vars, main_try_rerun cfg net faults conn conn2 soc_map vars)
    as Hrerun.
  unfold main.
  destruct (main_try cfg net faults conn soc_map) as [vars [e|]]; [done|].
  intros _. simpl in Hp. cbn [final_conn final_vars audit_row_of records_received fmap
                              option_fmap option_map].
  set (conn2 := log_pipeline_run _ _ _ _ _ _ _ _).
  destruct (log_pipeline_run_settled faults (v_conn vars) "BLS_OEWS" "SUCCESS"
              (default 0 (total_series vars)) (v_received vars) (v_written vars)
              None Hp) as [Hp2 Htable2].
  fold conn2 in Hp2, Htable2.
  destruct (Hrerun conn2 vars eq_refl Hp2 Htable2) as (conn3 & Htry & Hp3 & Htable3).
  rewrite Htry.
  cbn [final_status final_vars final_conn audit_row_of records_received
       records_written discrepancy_flag v_received v_written v_conn].
  split_and!; try done.
  by rewrite (proj2 (log_pipeline_run_settled faults conn3 _ _ _ _ _ _ Hp3)).
Qed.

Lemma rerun_writes_nothing_witness :
  let run1 := main public_tier echo_network no_faults empty_connection one_occupation in
  let run2 := main public_tier echo_network no_faults (final_conn run1) one_occupation in
  final_status run2 = "SUCCESS"
  ∧ records_received (audit_row_of run2) = records_received (audit_row_of run1)
  ∧ records_written (audit_row_of run2) = 0
  ∧ discrepancy_flag (audit_row_of run2)
    = negb (records_received (audit_row_of run1) =? 0)%nat
  ∧ bls_wage_data (committed (final_conn run2))
    = bls_wage_data (committed (final_conn run1)).
Proof.
  apply (rerun_writes_nothing public_tier echo_network no_faults
           empty_connection one_occupation); [reflexivity|].
  vm_compute. reflexivity.
Defined.
